(** * tensorflow_transform.tf_metadata.dataset_schema

    A shallow embedding of [dataset_schema.py], the in-memory schema of a
    dataset, and the properties of its converters.

    Python dictionaries are finite maps ([gmap string _]): dictionary equality
    ignores insertion order, and so does equality of [gmap]s.  Exceptions are
    values of [exn] carried by the [result] monad.  The [__eq__] methods of the
    module compare class and fields, which is equality of the corresponding
    constructors here. *)

From stdpp Require Import gmap strings list fin_maps.

Open Scope string_scope.

(** ** Exceptions *)

Inductive exn : Type :=
| ValueError (msg : string)
| TypeError (msg : string)
| AttributeError (msg : string)
| IndexError (msg : string)
| NotImplementedError (msg : string).

Inductive result (A : Type) : Type :=
| Ok (a : A)
| Raise (e : exn).
Arguments Ok {A} a.
Arguments Raise {A} e.

(** [result] is a monad; stdpp's notation [x ← c; k] sequences statements
    and stops at the first exception. *)
Global Instance result_ret : MRet result := λ A a, Ok a.
Global Instance result_bind : MBind result := λ A B k c,
  match c with
  | Ok a => k a
  | Raise e => Raise e
  end.

Definition raises {A} (c : result A) : bool :=
  match c with Ok _ => false | Raise _ => true end.

(** [for x in l: f(x)], collecting the results; the first exception ends the
    loop. *)
Fixpoint traverse {A B} (f : A → result B) (l : list A) : result (list B) :=
  match l with
  | [] => Ok []
  | x :: l' => y ← f x; ys ← traverse f l'; Ok (y :: ys)
  end.

(** [{key: f(value) for key, value in d.items()}]. *)
Definition dict_comprehension {A B} (f : A → result B) (d : gmap string A)
  : result (gmap string B) :=
  items ← traverse (λ kv, y ← f kv.2; Ok (kv.1, y)) (map_to_list d);
  Ok (list_to_map items).

(** ** The part of TensorFlow the module relies on

    [tf.DType] wraps a value of the [DataType] enumeration of [types.proto];
    every base type has a reference twin ([tf.int32_ref], the dtype of a
    variable's tensor).  [DT_VARIANT], [DT_UINT32] and [DT_UINT64] joined the
    enumeration in later 1.x releases.  [DType.__eq__] compares the
    enumeration values. *)

Inductive DataType : Type :=
| DT_FLOAT | DT_DOUBLE | DT_INT32 | DT_UINT8 | DT_INT16 | DT_INT8 | DT_STRING
| DT_COMPLEX64 | DT_INT64 | DT_BOOL | DT_QINT8 | DT_QUINT8 | DT_QINT32
| DT_BFLOAT16 | DT_QINT16 | DT_QUINT16 | DT_UINT16 | DT_COMPLEX128 | DT_HALF
| DT_RESOURCE | DT_VARIANT | DT_UINT32 | DT_UINT64.

Record DType : Type := mk_DType { base_dtype : DataType; is_ref_dtype : bool }.

Global Instance DataType_eq_dec : EqDecision DataType.
Proof. solve_decision. Defined.
Global Instance DType_eq_dec : EqDecision DType.
Proof. solve_decision. Defined.

Module tf.
Definition float16 := mk_DType DT_HALF false.
Definition float32 := mk_DType DT_FLOAT false.
Definition float64 := mk_DType DT_DOUBLE false.
Definition bfloat16 := mk_DType DT_BFLOAT16 false.
Definition complex64 := mk_DType DT_COMPLEX64 false.
Definition complex128 := mk_DType DT_COMPLEX128 false.
Definition int8 := mk_DType DT_INT8 false.
Definition uint8 := mk_DType DT_UINT8 false.
Definition uint16 := mk_DType DT_UINT16 false.
Definition uint32 := mk_DType DT_UINT32 false.
Definition uint64 := mk_DType DT_UINT64 false.
Definition int16 := mk_DType DT_INT16 false.
Definition int32 := mk_DType DT_INT32 false.
Definition int64 := mk_DType DT_INT64 false.
Definition bool := mk_DType DT_BOOL false.
Definition string := mk_DType DT_STRING false.
Definition int32_ref := mk_DType DT_INT32 true.

(** [DType.name] *)
Definition base_name (t : DataType) : String.string :=
  match t with
  | DT_FLOAT => "float32" | DT_DOUBLE => "float64" | DT_INT32 => "int32"
  | DT_UINT8 => "uint8" | DT_INT16 => "int16" | DT_INT8 => "int8"
  | DT_STRING => "string" | DT_COMPLEX64 => "complex64"
  | DT_INT64 => "int64" | DT_BOOL => "bool" | DT_QINT8 => "qint8"
  | DT_QUINT8 => "quint8" | DT_QINT32 => "qint32"
  | DT_BFLOAT16 => "bfloat16" | DT_QINT16 => "qint16"
  | DT_QUINT16 => "quint16" | DT_UINT16 => "uint16"
  | DT_COMPLEX128 => "complex128" | DT_HALF => "float16"
  | DT_RESOURCE => "resource" | DT_VARIANT => "variant"
  | DT_UINT32 => "uint32" | DT_UINT64 => "uint64"
  end.

Definition name (d : DType) : String.string :=
  if is_ref_dtype d then base_name (base_dtype d) +:+ "_ref"
  else base_name (base_dtype d).

(** [str(dtype)], as the error messages format it. *)
Definition str (d : DType) : String.string := "<dtype: '" +:+ name d +:+ "'>".

(** [DType.is_integer]: a non-quantized integer type; a reference type
    answers as its base type does. *)
Definition is_integer (d : DType) : Datatypes.bool :=
  match base_dtype d with
  | DT_INT8 | DT_INT16 | DT_INT32 | DT_INT64
  | DT_UINT8 | DT_UINT16 | DT_UINT32 | DT_UINT64 => true
  | _ => false
  end.

(** [DType.is_floating]: a non-quantized real floating point type; a
    reference type answers as its base type does.  [bfloat16] counts as
    floating in the releases that have [DT_UINT32]; no property below depends
    on it. *)
Definition is_floating (d : DType) : Datatypes.bool :=
  match base_dtype d with
  | DT_HALF | DT_FLOAT | DT_DOUBLE | DT_BFLOAT16 => true
  | _ => false
  end.
End tf.

(** [tf.TensorShape]: [None] when the rank is unknown, otherwise one
    [Dimension] per axis, each a size or [None].  A list of sizes handed to
    [tf.TensorShape(...)] is identified with the shape it converts to. *)
Definition TensorShape : Type := option (list (option N)).

(** [TensorShape.as_list()] *)
Definition as_list (s : TensorShape) : result (list (option N)) :=
  match s with
  | None => Raise (ValueError "as_list() is not defined on an unknown TensorShape.")
  | Some dims => Ok dims
  end.

(** A default value is stored and handed on, never inspected. *)
Inductive PyValue : Type :=
| PyInt (z : Z)
| PyStr (s : string)
| PyBool (b : bool).

(** The feature specs of [tf.parse_example]; [OtherFeature] stands for any
    object of another class, with its [str()]. *)
Inductive ParseFeature : Type :=
| FixedLenFeature (shape : TensorShape) (dtype : DType)
    (default_value : option PyValue)
| FixedLenSequenceFeature (shape : TensorShape) (dtype : DType)
    (allow_missing : bool) (default_value : option PyValue)
| VarLenFeature (dtype : DType)
| SparseFeature (index_key value_key : string) (dtype : DType)
    (size : option N) (already_sorted : bool)
| OtherFeature (repr : string).

(** A tensor, as far as the module looks at it: its class, [dtype] and
    [get_shape()]. *)
Inductive Tensor : Type :=
| DenseTensor (dtype : DType) (shape : TensorShape)
| SparseTensor (dtype : DType) (dense_shape : TensorShape).

Definition Tensor_dtype (t : Tensor) : DType :=
  match t with DenseTensor d _ | SparseTensor d _ => d end.

Definition get_shape (t : Tensor) : TensorShape :=
  match t with DenseTensor _ s | SparseTensor _ s => s end.

(** ** The data model *)

Inductive Domain : Type :=
| FloatDomain (dtype : DType)
| IntDomain (dtype : DType)
| StringDomain (dtype : DType)
| BoolDomain (dtype : DType).

(** [Domain.dtype] *)
Definition Domain_dtype (d : Domain) : DType :=
  match d with
  | FloatDomain t | IntDomain t | StringDomain t | BoolDomain t => t
  end.

(** [Axis(size)]: [size] is the length of the axis, [None] when unknown. *)
Record Axis : Type := mk_Axis { axis_size : option N }.

(** [LogicalShape(axes)]: [axes] is [None] when the rank is unknown. *)
Record LogicalShape : Type := mk_LogicalShape { axes : option (list Axis) }.

(** [LogicalColumnSchema(domain, shape)].  The converters of the fixed
    representation test [logical_column.shape is None], so the field is
    optional here. *)
Record LogicalColumnSchema : Type := mk_LogicalColumnSchema {
  domain : Domain;
  shape : option LogicalShape
}.

Record SparseIndexField : Type := mk_SparseIndexField {
  name : string;
  is_sorted : bool
}.

Inductive ColumnRepresentation : Type :=
| FixedColumnRepresentation (default_value : option PyValue)
| ListColumnRepresentation
| SparseColumnRepresentation (value_field_name : string)
    (index_fields : list SparseIndexField).

Record ColumnSchema : Type := mk_ColumnSchema {
  logical_column : LogicalColumnSchema;
  representation : ColumnRepresentation
}.

Record Schema : Type := mk_Schema {
  column_schemas : gmap string ColumnSchema
}.

(** [Schema.__new__]: a missing or empty argument becomes a fresh empty
    dictionary. *)
Definition Schema_new (column_schemas : option (gmap string ColumnSchema))
  : Schema :=
  match column_schemas with
  | None => mk_Schema ∅
  | Some d => if decide (d = ∅) then mk_Schema ∅ else mk_Schema d
  end.
Global Arguments Schema_new : simpl never.

(** ** Domains *)

Definition dtype_to_domain (dtype : DType) : result Domain :=
  if tf.is_integer dtype then Ok (IntDomain dtype)
  else if tf.is_floating dtype then Ok (FloatDomain dtype)
  else if bool_decide (dtype = tf.string) then Ok (StringDomain dtype)
  else if bool_decide (dtype = tf.bool) then Ok (BoolDomain dtype)
  else Raise (ValueError ("Schema cannot accommodate dtype: " +:+ tf.str dtype)).

Definition _BOOL_TYPES : list DType := [tf.bool].
Definition _INT_TYPES : list DType :=
  [tf.int8; tf.uint8; tf.uint16; tf.int16; tf.int32; tf.int64].
Definition _FLOAT_TYPES : list DType := [tf.float16; tf.float32; tf.float64].
Definition _STRING_TYPES : list DType := [tf.string].

Definition _dtype_to_domain (dtype : DType) : result Domain :=
  if bool_decide (dtype ∈ _BOOL_TYPES) then Ok (BoolDomain dtype)
  else if bool_decide (dtype ∈ _INT_TYPES) then Ok (IntDomain dtype)
  else if bool_decide (dtype ∈ _STRING_TYPES) then Ok (StringDomain dtype)
  else if bool_decide (dtype ∈ _FLOAT_TYPES) then Ok (FloatDomain dtype)
  else Raise (ValueError
                ("DatasetSchema does not yet support dtype: " +:+ tf.str dtype)).

(** ** Shapes *)

(** [LogicalShape.tf_shape] *)
Definition tf_shape (s : LogicalShape) : TensorShape :=
  match axes s with
  | None => None
  | Some l => Some (axis_size <$> l)
  end.

(** The loop of [LogicalShape.is_fixed_size]: [False] at the first axis of
    unknown size. *)
Fixpoint all_sizes_known (l : list Axis) : bool :=
  match l with
  | [] => true
  | axis :: l' =>
    match axis_size axis with
    | None => false
    | Some _ => all_sizes_known l'
    end
  end.

Definition is_fixed_size (s : LogicalShape) : bool :=
  match axes s with
  | None => false
  | Some l => all_sizes_known l
  end.

Definition rank_msg : string := "Expected tf_shape to have rank >= 1".

Definition _tf_shape_to_logical_shape (tf_shape : TensorShape)
    (remove_batch_dimension : bool) : result LogicalShape :=
  match tf_shape with
  | None => Ok (mk_LogicalShape None)
  | Some dims =>
    let axes := mk_Axis <$> dims in
    if remove_batch_dimension then
      if bool_decide (length axes < 1)
      then Raise (ValueError rank_msg)
      else Ok (mk_LogicalShape (Some (drop 1 axes)))
    else Ok (mk_LogicalShape (Some axes))
  end.

(** ** Representations as feature specs *)

Definition unknown_size_msg : string :=
  "A column of unknown size cannot be represented as fixed-size.".

Definition FixedColumnRepresentation_as_feature_spec
    (default_value : option PyValue) (logical_column : LogicalColumnSchema)
  : result ParseFeature :=
  match shape logical_column with
  | None => Raise (ValueError unknown_size_msg)
  | Some s =>
    if negb (is_fixed_size s) then Raise (ValueError unknown_size_msg)
    else
      dims ← as_list (tf_shape s);
      Ok (FixedLenFeature (Some dims) (Domain_dtype (domain logical_column))
            default_value)
  end.

Definition ListColumnRepresentation_as_feature_spec
    (logical_column : LogicalColumnSchema) : result ParseFeature :=
  Ok (VarLenFeature (Domain_dtype (domain logical_column))).

Definition sparse_rank_msg : string :=
  "tf.Example parser supports only 1-d sparse features.".

(** [len(ind) != 1 or len(logical_column.shape.axes) != 1]: the right operand
    is evaluated only when the left one is false; [.axes] of [None] and [len]
    of [None] raise. *)
Definition SparseColumnRepresentation_as_feature_spec
    (value_field_name : string) (index_fields : list SparseIndexField)
    (logical_column : LogicalColumnSchema) : result ParseFeature :=
  let ind := index_fields in
  if bool_decide (length ind ≠ 1) then Raise (ValueError sparse_rank_msg)
  else
    match shape logical_column with
    | None => Raise (AttributeError "'NoneType' object has no attribute 'axes'")
    | Some s =>
      match axes s with
      | None => Raise (TypeError "object of type 'NoneType' has no len()")
      | Some l =>
        if bool_decide (length l ≠ 1) then Raise (ValueError sparse_rank_msg)
        else
          match ind, l with
          | index :: _, axis0 :: _ =>
            Ok (SparseFeature (name index) value_field_name
                  (Domain_dtype (domain logical_column)) (axis_size axis0)
                  (is_sorted index))
          | _, _ => Raise (IndexError "list index out of range")
          end
      end
    end.

(** [ColumnRepresentation.as_feature_spec], by the class of the receiver. *)
Definition ColumnRepresentation_as_feature_spec (r : ColumnRepresentation)
    (logical_column : LogicalColumnSchema) : result ParseFeature :=
  match r with
  | FixedColumnRepresentation default_value =>
    FixedColumnRepresentation_as_feature_spec default_value logical_column
  | ListColumnRepresentation =>
    ListColumnRepresentation_as_feature_spec logical_column
  | SparseColumnRepresentation value_field_name index_fields =>
    SparseColumnRepresentation_as_feature_spec value_field_name index_fields
      logical_column
  end.

Definition ColumnSchema_as_feature_spec (c : ColumnSchema)
  : result ParseFeature :=
  ColumnRepresentation_as_feature_spec (representation c) (logical_column c).

Definition Schema_as_feature_spec (s : Schema)
  : result (gmap string ParseFeature) :=
  dict_comprehension ColumnSchema_as_feature_spec (column_schemas s).

(** ** Feature specs as schemas *)

Definition var_len_shape : LogicalShape := mk_LogicalShape (Some [mk_Axis None]).

Definition _from_parse_feature (parse_feature : ParseFeature)
  : result ColumnSchema :=
  match parse_feature with
  | FixedLenFeature shape dtype default_value =>
    d ← _dtype_to_domain dtype;
    s ← _tf_shape_to_logical_shape shape false;
    let logical := mk_LogicalColumnSchema d (Some s) in
    let representation := FixedColumnRepresentation default_value in
    Ok (mk_ColumnSchema logical representation)
  | FixedLenSequenceFeature _ _ _ _ =>
    Raise (ValueError
             "DatasetSchema does not support FixedLenSequenceFeature yet.")
  | VarLenFeature dtype =>
    d ← _dtype_to_domain dtype;
    let logical := mk_LogicalColumnSchema d (Some var_len_shape) in
    Ok (mk_ColumnSchema logical ListColumnRepresentation)
  | SparseFeature index_key value_key dtype size already_sorted =>
    let sparse_shape := mk_LogicalShape (Some [mk_Axis size]) in
    d ← _dtype_to_domain dtype;
    let logical := mk_LogicalColumnSchema d (Some sparse_shape) in
    let index_field := mk_SparseIndexField index_key already_sorted in
    Ok (mk_ColumnSchema logical
          (SparseColumnRepresentation value_key [index_field]))
  | OtherFeature repr =>
    Raise (ValueError ("Cannot interpret feature spec: " +:+ repr))
  end.

Definition from_feature_spec (feature_spec : gmap string ParseFeature)
  : result Schema :=
  d ← dict_comprehension _from_parse_feature feature_spec;
  Ok (Schema_new (Some d)).

(** ** Inference from a tensor *)

Definition infer_column_schema_from_tensor (tensor : Tensor)
  : result ColumnSchema :=
  match tensor with
  | SparseTensor _ _ =>
    d ← _dtype_to_domain (Tensor_dtype tensor);
    let logical := mk_LogicalColumnSchema d (Some var_len_shape) in
    Ok (mk_ColumnSchema logical ListColumnRepresentation)
  | DenseTensor _ _ =>
    d ← _dtype_to_domain (Tensor_dtype tensor);
    s ← _tf_shape_to_logical_shape (get_shape tensor) true;
    let logical := mk_LogicalColumnSchema d (Some s) in
    Ok (mk_ColumnSchema logical (FixedColumnRepresentation None))
  end.

(** ** Merging *)

Definition merge_msg : string := "Merge not implemented yet.".

Definition ColumnSchema_merge (self other : ColumnSchema) : result unit :=
  Raise (NotImplementedError merge_msg).

(** The loop of [Schema.merge] over the items of [other], in the order the
    dictionary yields them.  The receiver's dictionary is updated in place:
    the function returns it as it stands when the loop ends, by exhaustion or
    by an exception. *)
Fixpoint merge_loop (self : gmap string ColumnSchema)
    (items : list (string * ColumnSchema))
  : gmap string ColumnSchema * result unit :=
  match items with
  | [] => (self, Ok ())
  | (key, value) :: rest =>
    match self !! key with
    | Some mine =>
      match ColumnSchema_merge mine value with
      | Ok _ => merge_loop self rest
      | Raise e => (self, Raise e)
      end
    | None => merge_loop (<[key := value]> self) rest
    end
  end.

(** An order in which a dictionary may yield its items. *)
Definition items_of {A} (d : gmap string A) (items : list (string * A)) : Prop :=
  items ≡ₚ map_to_list d.

(** [self.merge(other)]: the receiver afterwards, and the outcome. *)
Definition Schema_merge (self other : Schema) : Schema * result unit :=
  let '(d, r) := merge_loop (column_schemas self)
                   (map_to_list (column_schemas other)) in
  (mk_Schema d, r).

(** ** Vocabulary of the properties *)

(** The shape of the column is present and fixed-size. *)
Definition has_fixed_size (logical_column : LogicalColumnSchema) : bool :=
  match shape logical_column with
  | None => false
  | Some s => is_fixed_size s
  end.

(** The dtypes listed in the four tables of [_dtype_to_domain]. *)
Definition supported_dtypes : list DType :=
  _BOOL_TYPES ++ _INT_TYPES ++ _STRING_TYPES ++ _FLOAT_TYPES.

Definition supported (dtype : DType) : bool :=
  bool_decide (dtype ∈ supported_dtypes).

(** Both calls raise, or both return the same value. *)
Definition same_outcome {A} (r1 r2 : result A) : Prop :=
  match r1, r2 with
  | Ok a, Ok b => a = b
  | Raise _, Raise _ => True
  | _, _ => False
  end.

(** The column inferred for a sparse tensor, given its domain. *)
Definition var_len_column (d : Domain) : ColumnSchema :=
  mk_ColumnSchema (mk_LogicalColumnSchema d (Some var_len_shape))
    ListColumnRepresentation.

(** [_from_parse_feature(column_schema.as_feature_spec())] *)
Definition column_round_trip (c : ColumnSchema) : result ColumnSchema :=
  f ← ColumnSchema_as_feature_spec c; _from_parse_feature f.

(** [from_feature_spec(schema.as_feature_spec())] *)
Definition schema_round_trip (s : Schema) : result Schema :=
  fs ← Schema_as_feature_spec s; from_feature_spec fs.

(** What a column needs to come back from its feature spec: its domain is the
    one [_dtype_to_domain] gives its dtype, and its shape is what the feature
    spec of its representation can carry. *)
Definition round_trips (c : ColumnSchema) : Prop :=
  _dtype_to_domain (Domain_dtype (domain (logical_column c)))
    = Ok (domain (logical_column c))
  ∧ match representation c with
    | FixedColumnRepresentation _ => has_fixed_size (logical_column c) = true
    | ListColumnRepresentation =>
      shape (logical_column c) = Some var_len_shape
    | SparseColumnRepresentation _ ind =>
      length ind = 1
      ∧ ∃ axis, shape (logical_column c)
                = Some (mk_LogicalShape (Some [axis]))
    end.

(** The preconditions of the representations alone: a fixed-size shape for a
    fixed column, one index field and one axis for a sparse column, nothing
    for a list column. *)
Definition representation_precondition (c : ColumnSchema) : Prop :=
  match representation c with
  | FixedColumnRepresentation _ => has_fixed_size (logical_column c) = true
  | ListColumnRepresentation => True
  | SparseColumnRepresentation _ ind =>
    length ind = 1
    ∧ ∃ axis, shape (logical_column c) = Some (mk_LogicalShape (Some [axis]))
  end.

(** ** Example columns *)

Definition int_vector3 : LogicalColumnSchema :=
  mk_LogicalColumnSchema (IntDomain tf.int64)
    (Some (mk_LogicalShape (Some [mk_Axis (Some 3%N)]))).

Definition fixed_column : ColumnSchema :=
  mk_ColumnSchema int_vector3 (FixedColumnRepresentation (Some (PyInt 0))).

Definition list_column : ColumnSchema :=
  mk_ColumnSchema
    (mk_LogicalColumnSchema (StringDomain tf.string) (Some var_len_shape))
    ListColumnRepresentation.

Definition sparse_column : ColumnSchema :=
  mk_ColumnSchema
    (mk_LogicalColumnSchema (FloatDomain tf.float32)
       (Some (mk_LogicalShape (Some [mk_Axis (Some 10%N)]))))
    (SparseColumnRepresentation "val" [mk_SparseIndexField "idx" true]).

(** A list column that declares a known size. *)
Definition sized_list_column : ColumnSchema :=
  mk_ColumnSchema int_vector3 ListColumnRepresentation.

Definition three_columns : Schema :=
  mk_Schema (<["f" := fixed_column]> (<["l" := list_column]>
                                        {["s" := sparse_column]})).

(** ** Representations as placeholders *)

(** The placeholder a converter asks TensorFlow for: [tf.placeholder] or
    [tf.sparse_placeholder], with the dtype and the shape it passes. *)
Inductive Placeholder : Type :=
| placeholder (dtype : DType) (shape : list (option N))
| sparse_placeholder (dtype : DType) (shape : list (option N)).

Definition Placeholder_dtype (p : Placeholder) : DType :=
  match p with placeholder d _ | sparse_placeholder d _ => d end.

Definition Placeholder_shape (p : Placeholder) : list (option N) :=
  match p with placeholder _ s | sparse_placeholder _ s => s end.

Definition FixedColumnRepresentation_as_batched_placeholder
    (logical_column : LogicalColumnSchema) : result Placeholder :=
  match shape logical_column with
  | None => Raise (ValueError unknown_size_msg)
  | Some s =>
    if negb (is_fixed_size s) then Raise (ValueError unknown_size_msg)
    else
      dims ← as_list (tf_shape s);
      Ok (placeholder (Domain_dtype (domain logical_column)) (None :: dims))
  end.

(** [logical_column.shape.tf_shape().as_list()]: [.tf_shape] of [None]
    raises, and so does [as_list()] on an unknown rank. *)
Definition shape_as_list (logical_column : LogicalColumnSchema)
  : result (list (option N)) :=
  match shape logical_column with
  | None =>
    Raise (AttributeError "'NoneType' object has no attribute 'tf_shape'")
  | Some s => as_list (tf_shape s)
  end.

Definition ListColumnRepresentation_as_batched_placeholder
    (logical_column : LogicalColumnSchema) : result Placeholder :=
  dims ← shape_as_list logical_column;
  Ok (sparse_placeholder (Domain_dtype (domain logical_column)) (None :: dims)).

Definition SparseColumnRepresentation_as_batched_placeholder
    (value_field_name : string) (index_fields : list SparseIndexField)
    (logical_column : LogicalColumnSchema) : result Placeholder :=
  dims ← shape_as_list logical_column;
  Ok (sparse_placeholder (Domain_dtype (domain logical_column)) (None :: dims)).

(** [ColumnRepresentation.as_batched_placeholder], by the class of the
    receiver. *)
Definition ColumnRepresentation_as_batched_placeholder
    (r : ColumnRepresentation) (logical_column : LogicalColumnSchema)
  : result Placeholder :=
  match r with
  | FixedColumnRepresentation _ =>
    FixedColumnRepresentation_as_batched_placeholder logical_column
  | ListColumnRepresentation =>
    ListColumnRepresentation_as_batched_placeholder logical_column
  | SparseColumnRepresentation value_field_name index_fields =>
    SparseColumnRepresentation_as_batched_placeholder value_field_name
      index_fields logical_column
  end.

Definition ColumnSchema_as_batched_placeholder (c : ColumnSchema)
  : result Placeholder :=
  ColumnRepresentation_as_batched_placeholder (representation c)
    (logical_column c).

Definition Schema_as_batched_placeholders (s : Schema)
  : result (gmap string Placeholder) :=
  dict_comprehension ColumnSchema_as_batched_placeholder (column_schemas s).

(** The tensor [tf.placeholder(dtype, shape)] returns. *)
Definition placeholder_tensor (dtype : DType) (shape : list (option N))
  : Tensor :=
  DenseTensor dtype (Some shape).

(** ** Further vocabulary *)

(** Every dimension of the list is known. *)
Definition all_known (dims : list (option N)) : bool :=
  forallb (λ d, bool_decide (is_Some d)) dims.

(** The feature specs [_from_parse_feature] takes: one of the three classes
    it reads, over a listed dtype. *)
Definition accepted (f : ParseFeature) : bool :=
  match f with
  | FixedLenFeature _ dtype _ | VarLenFeature dtype
  | SparseFeature _ _ dtype _ _ => supported dtype
  | FixedLenSequenceFeature _ _ _ _ | OtherFeature _ => false
  end.

(** [column_schema.as_feature_spec()] of the column of a feature spec. *)
Definition feature_round_trip (f : ParseFeature) : result ParseFeature :=
  c ← _from_parse_feature f; ColumnSchema_as_feature_spec c.

(** [from_feature_spec(feature_spec).as_feature_spec()] *)
Definition feature_spec_round_trip (fs : gmap string ParseFeature)
  : result (gmap string ParseFeature) :=
  s ← from_feature_spec fs; Schema_as_feature_spec s.

(** The feature specs that come back: an accepted one, and for a
    [FixedLenFeature] a shape of known rank and known dimensions. *)
Definition feature_comes_back (f : ParseFeature) : bool :=
  match f with
  | FixedLenFeature (Some dims) dtype _ => supported dtype && all_known dims
  | FixedLenFeature None _ _ => false
  | _ => accepted f
  end.

(** The dimensions after the batch dimension are all known. *)
Definition inner_dims_known (ts : TensorShape) : bool :=
  match ts with
  | Some (_ :: dims) => all_known dims
  | _ => false
  end.

(** Case analysis over every dtype. *)
Ltac each_dtype d :=
  let b := fresh "b" in let r := fresh "r" in
  destruct d as [b r]; destruct b, r.

(** * Properties *)

(** ** Shapes of runtime values *)

(** C2, as the code has it: with the leading axis dropped, a shape of known
    rank 0 raises the rank error, a shape of unknown rank is returned as a
    logical shape of unknown rank without any error, and a shape of rank at
    least 1 comes back without its first axis. *)
Theorem tf_shape_to_logical_shape_drop_leading (s : TensorShape) :
  _tf_shape_to_logical_shape s true =
    match s with
    | None => Ok (mk_LogicalShape None)
    | Some [] => Raise (ValueError rank_msg)
    | Some (_ :: dims) => Ok (mk_LogicalShape (Some (mk_Axis <$> dims)))
    end
  ∧ (raises (_tf_shape_to_logical_shape s true) = true ↔ s = Some []).
Proof.
  destruct s as [[|d dims]|]; split; try reflexivity;
    split; intros H; try reflexivity; discriminate H.
Qed.

(** C2, the unknown rank: no error is raised. *)
Lemma tf_shape_to_logical_shape_unknown_rank :
  _tf_shape_to_logical_shape None true = Ok (mk_LogicalShape None)
  ∧ raises (_tf_shape_to_logical_shape None true) = false.
Proof. split; reflexivity. Qed.

(** Without the option the shape is translated axis by axis. *)
Lemma tf_shape_to_logical_shape_keep (s : TensorShape) :
  _tf_shape_to_logical_shape s false =
    Ok (mk_LogicalShape (fmap (M := list) mk_Axis <$> s)).
Proof. destruct s; reflexivity. Qed.

Lemma all_sizes_known_Forall (l : list Axis) :
  all_sizes_known l = true ↔ Forall (λ a, is_Some (axis_size a)) l.
Proof.
  induction l as [|[[n|]] l IH]; cbn.
  - split; [constructor | reflexivity].
  - rewrite IH, Forall_cons. split; [intros H; split; eauto | intros [_ H]; exact H].
  - split; [discriminate |].
    intros H. apply Forall_cons in H as [[? H] _]. discriminate H.
Qed.

(** [is_fixed_size]: the axes are present and every size is known. *)
Lemma is_fixed_size_spec (s : LogicalShape) :
  is_fixed_size s = true ↔
  ∃ l, axes s = Some l ∧ Forall (λ a, is_Some (axis_size a)) l.
Proof.
  unfold is_fixed_size. destruct (axes s) as [l|].
  - rewrite all_sizes_known_Forall. split; [eauto | intros (l' & [= <-] & H); exact H].
  - split; [discriminate | intros (l' & [=] & _)].
Qed.

(** ** The fixed representation *)

(** The three cases of the fixed representation. *)
Lemma FixedColumnRepresentation_as_feature_spec_cases
    (default_value : option PyValue) (lc : LogicalColumnSchema) :
  FixedColumnRepresentation_as_feature_spec default_value lc =
    match shape lc with
    | Some (mk_LogicalShape (Some l)) =>
      if all_sizes_known l
      then Ok (FixedLenFeature (Some (axis_size <$> l))
                 (Domain_dtype (domain lc)) default_value)
      else Raise (ValueError unknown_size_msg)
    | _ => Raise (ValueError unknown_size_msg)
    end.
Proof.
  unfold FixedColumnRepresentation_as_feature_spec.
  destruct (shape lc) as [[[l|]]|]; try reflexivity.
  unfold is_fixed_size; cbn. by destruct (all_sizes_known l).
Qed.

Lemma has_fixed_size_spec (lc : LogicalColumnSchema) :
  has_fixed_size lc = true ↔
  ∃ l, shape lc = Some (mk_LogicalShape (Some l)) ∧ all_sizes_known l = true.
Proof.
  unfold has_fixed_size, is_fixed_size.
  destruct (shape lc) as [[[l|]]|]; cbn.
  - split; [eauto | intros (l' & [= <-] & H); exact H].
  - split; [discriminate | intros (l' & [=] & _)].
  - split; [discriminate | intros (l' & [=] & _)].
Qed.

(** C3: the fixed representation raises the unknown-size error exactly when
    the column's shape is not fixed-size; otherwise it returns a
    [FixedLenFeature] with the sizes of the axes, the dtype of the domain and
    the default value of the representation. *)
Theorem FixedColumnRepresentation_as_feature_spec_spec
    (default_value : option PyValue) (lc : LogicalColumnSchema) :
  (has_fixed_size lc = false ↔
     FixedColumnRepresentation_as_feature_spec default_value lc
       = Raise (ValueError unknown_size_msg))
  ∧ (has_fixed_size lc = false ↔
       raises (FixedColumnRepresentation_as_feature_spec default_value lc) = true)
  ∧ (has_fixed_size lc = true ↔
       ∃ l, shape lc = Some (mk_LogicalShape (Some l))
            ∧ Forall (λ a, is_Some (axis_size a)) l
            ∧ FixedColumnRepresentation_as_feature_spec default_value lc
              = Ok (FixedLenFeature (Some (axis_size <$> l))
                      (Domain_dtype (domain lc)) default_value)).
Proof.
  rewrite FixedColumnRepresentation_as_feature_spec_cases.
  destruct (has_fixed_size lc) eqn:Hfix.
  - apply has_fixed_size_spec in Hfix as (l & -> & Hl). rewrite Hl.
    repeat split; try discriminate.
    intros _. exists l. repeat split. by apply all_sizes_known_Forall.
  - assert (Hno : ¬ ∃ l, shape lc = Some (mk_LogicalShape (Some l))
                         ∧ all_sizes_known l = true).
    { intros H. apply has_fixed_size_spec in H. congruence. }
    destruct (shape lc) as [[[l|]]|]; [destruct (all_sizes_known l) eqn:Hl |..];
      try (exfalso; apply Hno; by eauto);
      (repeat split; try discriminate; try reflexivity);
      intros (l' & [= <-] & Hall & _);
      apply all_sizes_known_Forall in Hall; congruence.
Qed.

(** ** The list representation *)

(** C10: the feature spec of a list column is read off the domain alone; two
    logical columns with equal domains get equal feature specs, whatever
    their shapes. *)
Theorem ListColumnRepresentation_as_feature_spec_shape_blind
    (lc1 lc2 : LogicalColumnSchema) :
  domain lc1 = domain lc2 →
  ListColumnRepresentation_as_feature_spec lc1
  = ListColumnRepresentation_as_feature_spec lc2.
Proof.
  intros Hd. unfold ListColumnRepresentation_as_feature_spec. by rewrite Hd.
Qed.

Lemma ListColumnRepresentation_as_feature_spec_shape_blind_witness :
  let d := IntDomain tf.int64 in
  let lc1 := mk_LogicalColumnSchema d (Some (mk_LogicalShape (Some [mk_Axis (Some 3%N)]))) in
  let lc2 := mk_LogicalColumnSchema d (Some (mk_LogicalShape None)) in
  shape lc1 ≠ shape lc2
  ∧ ListColumnRepresentation_as_feature_spec lc1
    = ListColumnRepresentation_as_feature_spec lc2.
Proof.
  cbv zeta. split; [discriminate |].
  apply ListColumnRepresentation_as_feature_spec_shape_blind. reflexivity.
Defined.

(** The dtype of the domain is all that reaches the feature spec. *)
Lemma ListColumnRepresentation_as_feature_spec_value
    (lc : LogicalColumnSchema) :
  ListColumnRepresentation_as_feature_spec lc
  = Ok (VarLenFeature (Domain_dtype (domain lc))).
Proof. reflexivity. Qed.

(** ** The sparse representation *)

(** With the axes of the shape present, the sparse representation raises the
    rank error unless there is exactly one index field and exactly one axis,
    and otherwise returns a [SparseFeature] made of the index field's name,
    the value field name, the dtype of the domain, the size of the axis and
    the index field's sortedness. *)
Lemma SparseColumnRepresentation_as_feature_spec_known_rank
    (value_field_name : string) (ind : list SparseIndexField)
    (d : Domain) (l : list Axis) :
  let lc := mk_LogicalColumnSchema d (Some (mk_LogicalShape (Some l))) in
  SparseColumnRepresentation_as_feature_spec value_field_name ind lc =
    match ind, l with
    | [index], [axis] =>
      Ok (SparseFeature (name index) value_field_name (Domain_dtype d)
            (axis_size axis) (is_sorted index))
    | _, _ => Raise (ValueError sparse_rank_msg)
    end.
Proof.
  destruct ind as [|index [|? ?]], l as [|axis [|? ?]]; reflexivity.
Qed.

(** Any other number of index fields raises the rank error, whatever the
    shape. *)
Lemma SparseColumnRepresentation_as_feature_spec_index_fields
    (value_field_name : string) (ind : list SparseIndexField)
    (lc : LogicalColumnSchema) :
  length ind ≠ 1 →
  SparseColumnRepresentation_as_feature_spec value_field_name ind lc
  = Raise (ValueError sparse_rank_msg).
Proof.
  intros Hlen. unfold SparseColumnRepresentation_as_feature_spec.
  by rewrite bool_decide_eq_true_2.
Qed.

(** C4, where the code departs from it: one index field and a shape of
    unknown rank.  The shape does not have exactly one axis, yet the error is
    the [TypeError] of [len(None)], not the rank error. *)
Theorem SparseColumnRepresentation_as_feature_spec_unknown_rank :
  let index := mk_SparseIndexField "idx" false in
  let lc := mk_LogicalColumnSchema (IntDomain tf.int64)
              (Some (mk_LogicalShape None)) in
  SparseColumnRepresentation_as_feature_spec "val" [index] lc
  = Raise (TypeError "object of type 'NoneType' has no len()")
  ∧ SparseColumnRepresentation_as_feature_spec "val" [index] lc
    ≠ Raise (ValueError sparse_rank_msg).
Proof. split; [reflexivity | discriminate]. Qed.

(** ** Domains of dtypes *)

(** [_dtype_to_domain] returns exactly on the listed dtypes, and raises a
    [ValueError] elsewhere. *)
Lemma _dtype_to_domain_supported (dtype : DType) :
  if supported dtype
  then ∃ d, _dtype_to_domain dtype = Ok d ∧ Domain_dtype d = dtype
  else _dtype_to_domain dtype
       = Raise (ValueError
                  ("DatasetSchema does not yet support dtype: " +:+ tf.str dtype)).
Proof. each_dtype dtype; vm_compute; eauto. Qed.

(** C9, as the code has it: on the eleven listed dtypes the two functions
    return the same domain, and whenever [_dtype_to_domain] returns, so does
    [dtype_to_domain], with the same domain.  They have the same outcome
    exactly on the listed dtypes and on those [dtype_to_domain] rejects. *)
Theorem dtype_to_domain_extends_internal (dtype : DType) :
  (supported dtype = true →
     ∃ d, dtype_to_domain dtype = Ok d ∧ _dtype_to_domain dtype = Ok d)
  ∧ (∀ d, _dtype_to_domain dtype = Ok d → dtype_to_domain dtype = Ok d)
  ∧ (same_outcome (dtype_to_domain dtype) (_dtype_to_domain dtype) ↔
       supported dtype = true ∨ raises (dtype_to_domain dtype) = true).
Proof.
  each_dtype dtype; vm_compute;
    (split; [try discriminate; eauto |]);
    (split; [intros d; try discriminate; exact id |]);
    (split; [try tauto; try (intros _; left; reflexivity); intros _; right; reflexivity |]);
    intros [H|H]; try discriminate H; exact I || reflexivity.
Qed.

(** C9, where the two functions part: an unsigned 32-bit integer and the
    reference twin of [int32] are integers for [dtype_to_domain], and are in
    none of the tables of [_dtype_to_domain]. *)
Lemma dtype_to_domain_differs :
  dtype_to_domain tf.uint32 = Ok (IntDomain tf.uint32)
  ∧ raises (_dtype_to_domain tf.uint32) = true
  ∧ ¬ same_outcome (dtype_to_domain tf.uint32) (_dtype_to_domain tf.uint32)
  ∧ dtype_to_domain tf.int32_ref = Ok (IntDomain tf.int32_ref)
  ∧ raises (_dtype_to_domain tf.int32_ref) = true
  ∧ ¬ same_outcome (dtype_to_domain tf.int32_ref) (_dtype_to_domain tf.int32_ref).
Proof. vm_compute. repeat split; auto. Qed.

(** ** Inference *)

(** C7, as the code has it: for a sparse tensor of a listed dtype, inference
    returns a list column over a single axis of unknown size, whatever the
    dense shape; for any other dtype it raises the [ValueError] of
    [_dtype_to_domain].  No sparse tensor is given a sparse or a fixed
    representation. *)
Theorem infer_column_schema_from_sparse_tensor
    (dtype : DType) (dense_shape : TensorShape) :
  (if supported dtype
   then ∃ d, Domain_dtype d = dtype
             ∧ infer_column_schema_from_tensor (SparseTensor dtype dense_shape)
               = Ok (var_len_column d)
   else infer_column_schema_from_tensor (SparseTensor dtype dense_shape)
        = Raise (ValueError
                   ("DatasetSchema does not yet support dtype: "
                      +:+ tf.str dtype)))
  ∧ (∀ c, infer_column_schema_from_tensor (SparseTensor dtype dense_shape) = Ok c →
          representation c = ListColumnRepresentation
          ∧ shape (logical_column c) = Some (mk_LogicalShape (Some [mk_Axis None]))).
Proof.
  pose proof (_dtype_to_domain_supported dtype) as Hd.
  unfold infer_column_schema_from_tensor; cbn [Tensor_dtype].
  destruct (supported dtype).
  - destruct Hd as (d & -> & Hdt). split.
    + exists d. split; [exact Hdt | reflexivity].
    + intros c [= <-]. split; reflexivity.
  - rewrite Hd. split; [reflexivity | intros c [=]].
Qed.

(** C7, a sparse tensor for which inference returns nothing: complex
    numbers have no domain. *)
Lemma infer_column_schema_from_sparse_tensor_complex64 :
  infer_column_schema_from_tensor
    (SparseTensor tf.complex64 (Some [None; Some 5%N]))
  = Raise (ValueError
             "DatasetSchema does not yet support dtype: <dtype: 'complex64'>")
  ∧ ¬ ∃ c, infer_column_schema_from_tensor
             (SparseTensor tf.complex64 (Some [None; Some 5%N])) = Ok c.
Proof. split; [reflexivity | intros [c [=]]]. Qed.

(** C8: a dense [int32] tensor of shape [[batch, 3]], whatever the batch
    size, gets an [IntDomain] over [int32], the single axis of size 3 and a
    fixed representation without default value. *)
Theorem infer_column_schema_from_dense_int32 (batch : option N) :
  infer_column_schema_from_tensor
    (DenseTensor tf.int32 (Some [batch; Some 3%N]))
  = Ok (mk_ColumnSchema
          (mk_LogicalColumnSchema (IntDomain tf.int32)
             (Some (mk_LogicalShape (Some [mk_Axis (Some 3%N)]))))
          (FixedColumnRepresentation None)).
Proof. reflexivity. Qed.

(** ** Merging *)

(** Keys that the receiver does not have are inserted one after the other. *)
Lemma merge_loop_fresh (items : list (string * ColumnSchema)) :
  ∀ self : gmap string ColumnSchema,
    NoDup items.*1 →
    (∀ k, k ∈ items.*1 → self !! k = None) →
    merge_loop self items = (self ∪ list_to_map items, Ok ()).
Proof.
  induction items as [|[key value] rest IH]; intros self Hnd Hfresh; cbn.
  - by rewrite (right_id_L ∅ (∪)).
  - cbn in Hnd. apply NoDup_cons in Hnd as [Hkey Hnd].
    rewrite (Hfresh key) by (cbn; left).
    rewrite IH; [| exact Hnd |].
    + f_equal. rewrite <-insert_union_l. apply insert_union_r.
      apply Hfresh. cbn; left.
    + intros k Hk. rewrite lookup_insert_ne.
      * apply Hfresh. cbn; by right.
      * intros ->. contradiction.
Qed.

(** The loop stops with the error of [ColumnSchema.merge] as soon as a key of
    the receiver comes up; what the receiver held before is untouched. *)
Lemma merge_loop_shared (items : list (string * ColumnSchema)) :
  ∀ self : gmap string ColumnSchema,
    (∃ k, k ∈ items.*1 ∧ is_Some (self !! k)) →
    ∃ d, merge_loop self items = (d, Raise (NotImplementedError merge_msg))
         ∧ self ⊆ d.
Proof.
  induction items as [|[key value] rest IH]; intros self (k & Hk & Hself).
  - cbn in Hk. by apply elem_of_nil in Hk.
  - cbn. destruct (self !! key) as [mine|] eqn:Hkey.
    + exists self. split; reflexivity.
    + destruct (IH (<[key := value]> self)) as (d & Hd & Hsub).
      * exists k. cbn in Hk. apply elem_of_cons in Hk as [->|Hk].
        -- rewrite Hkey in Hself. by destruct Hself.
        -- split; [exact Hk |].
           rewrite lookup_insert_ne; [exact Hself |].
           intros <-. rewrite Hkey in Hself. by destruct Hself.
      * exists d. split; [exact Hd |].
        etrans; [| exact Hsub]. by apply insert_subseteq.
Qed.

Lemma items_of_NoDup {A} (d : gmap string A) (items : list (string * A)) :
  items_of d items → NoDup items.*1.
Proof.
  unfold items_of. intros Hp. rewrite Hp. apply NoDup_fst_map_to_list.
Qed.

Lemma items_of_list_to_map {A} (d : gmap string A) (items : list (string * A)) :
  items_of d items → list_to_map items = d.
Proof.
  intros Hp. rewrite <-(list_to_map_to_list d).
  apply list_to_map_proper; [by eapply items_of_NoDup | exact Hp].
Qed.

Lemma items_of_keys {A} (d : gmap string A) (items : list (string * A)) k :
  items_of d items → k ∈ items.*1 ↔ is_Some (d !! k).
Proof.
  unfold items_of. intros Hp. rewrite Hp. rewrite list_elem_of_fmap. split.
  - intros ([k' v] & -> & Hin). apply elem_of_map_to_list in Hin. eauto.
  - intros [v Hv]. exists (k, v). split; [reflexivity |].
    by apply elem_of_map_to_list.
Qed.

Lemma items_of_map_to_list {A} (d : gmap string A) : items_of d (map_to_list d).
Proof. unfold items_of. reflexivity. Qed.

(** C5: when no column name is shared, [merge] ends without error and leaves
    in the receiver the union of the two dictionaries, in whatever order the
    items of [other] come: its size is the sum of the two sizes, and a name
    is bound to the column it had in the dictionary that held it. *)
Theorem Schema_merge_disjoint (self other : Schema)
    (items : list (string * ColumnSchema)) :
  dom (column_schemas self) ## dom (column_schemas other) →
  items_of (column_schemas other) items →
  let merged := column_schemas self ∪ column_schemas other in
  merge_loop (column_schemas self) items = (merged, Ok ())
  ∧ Schema_merge self other = (mk_Schema merged, Ok ())
  ∧ size merged = size (column_schemas self) + size (column_schemas other)
  ∧ ∀ k c, merged !! k = Some c ↔
           column_schemas self !! k = Some c ∨ column_schemas other !! k = Some c.
Proof.
  intros Hdom Hitems merged. apply map_disjoint_dom in Hdom.
  assert (Hloop : ∀ l, items_of (column_schemas other) l →
            merge_loop (column_schemas self) l = (merged, Ok ())).
  { intros l Hl. rewrite merge_loop_fresh.
    - by rewrite (items_of_list_to_map _ _ Hl).
    - by eapply items_of_NoDup.
    - intros k Hk. apply (items_of_keys _ _ _ Hl) in Hk as [c Hc].
      by eapply map_disjoint_Some_r. }
  split; [by apply Hloop |]. split; [| split].
  - unfold Schema_merge. by rewrite (Hloop _ (items_of_map_to_list _)).
  - by apply map_size_disj_union.
  - intros k c. by apply lookup_union_Some.
Qed.

(** C6: when a column name is shared, [merge] raises the error of
    [ColumnSchema.merge], in whatever order the items of [other] come; the
    columns the receiver had are as they were. *)
Theorem Schema_merge_shared (self other : Schema)
    (items : list (string * ColumnSchema)) (k : string) :
  is_Some (column_schemas self !! k) →
  is_Some (column_schemas other !! k) →
  items_of (column_schemas other) items →
  (∃ d, merge_loop (column_schemas self) items
        = (d, Raise (NotImplementedError merge_msg))
        ∧ column_schemas self ⊆ d)
  ∧ (∃ self', Schema_merge self other
              = (self', Raise (NotImplementedError merge_msg))
              ∧ column_schemas self ⊆ column_schemas self').
Proof.
  intros Hself Hother Hitems. split.
  - apply merge_loop_shared. exists k. split; [| exact Hself].
    by apply (items_of_keys _ _ _ Hitems).
  - destruct (merge_loop_shared (map_to_list (column_schemas other))
                (column_schemas self)) as (d & Hd & Hsub).
    { exists k. split; [| exact Hself].
      by apply (items_of_keys _ _ _ (items_of_map_to_list _)). }
    exists (mk_Schema d). unfold Schema_merge. rewrite Hd. by split.
Qed.

(** ** Dictionary comprehensions *)

Lemma traverse_items {A B} (f : A → result B) (l : list (string * A)) :
  ∀ l', traverse (λ kv, y ← f kv.2; Ok (kv.1, y)) l = Ok l' →
        ∀ k, option_Forall2 (λ v y, f v = Ok y)
               ((list_to_map l : gmap string A) !! k)
               ((list_to_map l' : gmap string B) !! k).
Proof.
  induction l as [|[k0 v0] l IH]; intros l' Hl' k; cbn in Hl'.
  - injection Hl' as <-. cbn. rewrite !lookup_empty. constructor.
  - destruct (f v0) as [y0|e] eqn:Hf; cbn in Hl'; [| discriminate].
    destruct (traverse _ l) as [l''|e] eqn:Hrest; cbn in Hl'; [| discriminate].
    injection Hl' as <-. cbn.
    destruct (decide (k0 = k)) as [->|Hne].
    + rewrite !lookup_insert_eq. by constructor.
    + rewrite !lookup_insert_ne by done. by apply IH.
Qed.

Lemma traverse_total {A B} (f : A → result B) (l : list A) :
  (∀ x, x ∈ l → ∃ y, f x = Ok y) → ∃ l', traverse f l = Ok l'.
Proof.
  induction l as [|x l IH]; intros Hall; cbn.
  - by eexists.
  - destruct (Hall x) as [y ->]; [by left |].
    destruct IH as [l' ->]; [intros x' Hx'; apply Hall; by right |].
    by eexists.
Qed.

(** A comprehension that returns maps every value of the dictionary, under
    its key. *)
Lemma dict_comprehension_lookup {A B} (f : A → result B)
    (d : gmap string A) (d' : gmap string B) :
  dict_comprehension f d = Ok d' →
  ∀ k, option_Forall2 (λ v y, f v = Ok y) (d !! k) (d' !! k).
Proof.
  unfold dict_comprehension. intros Hd k.
  destruct (traverse _ (map_to_list d)) as [l'|e] eqn:Hl'; cbn in Hd;
    [| discriminate].
  injection Hd as <-. rewrite <-(list_to_map_to_list d) at 1.
  by apply traverse_items.
Qed.

(** A comprehension returns when the function does on every value. *)
Lemma dict_comprehension_total {A B} (f : A → result B) (d : gmap string A) :
  (∀ k v, d !! k = Some v → ∃ y, f v = Ok y) →
  ∃ d', dict_comprehension f d = Ok d'.
Proof.
  intros Hall. unfold dict_comprehension.
  destruct (traverse_total (λ kv, y ← f kv.2; Ok (kv.1, y)) (map_to_list d))
    as [l' ->]; [| by eexists].
  intros [k v] Hin. apply elem_of_map_to_list in Hin.
  destruct (Hall k v Hin) as [y Hy]. cbn. rewrite Hy. by eexists.
Qed.

(** ** The round trip through feature specs *)

Lemma fmap_mk_Axis_axis_size (l : list Axis) :
  mk_Axis <$> (axis_size <$> l) = l.
Proof.
  induction l as [|[n] l IH]; [reflexivity |]. cbn. by rewrite IH.
Qed.

Lemma column_round_trip_spec (c : ColumnSchema) :
  column_round_trip c = Ok c ↔ round_trips c.
Proof.
  destruct c as [[d sh] r].
  unfold column_round_trip, round_trips, ColumnSchema_as_feature_spec; cbn.
  destruct r as [dv| |vf ind]; cbn.
  - rewrite FixedColumnRepresentation_as_feature_spec_cases; cbn.
    destruct (has_fixed_size (mk_LogicalColumnSchema d sh)) eqn:Hfix.
    + apply has_fixed_size_spec in Hfix as (l & Hsh & Hl). cbn in Hsh.
      subst sh. rewrite Hl; cbn. rewrite fmap_mk_Axis_axis_size.
      destruct (_dtype_to_domain (Domain_dtype d)) as [d'|e]; cbn.
      * split; [intros [= ->]; by split | intros [[= ->] _]; reflexivity].
      * split; [discriminate | intros [[=] _]].
    + assert (Hno : ¬ ∃ l, sh = Some (mk_LogicalShape (Some l))
                           ∧ all_sizes_known l = true).
      { intros H.
        apply (has_fixed_size_spec (mk_LogicalColumnSchema d sh)) in H.
        congruence. }
      destruct sh as [[[l|]]|]; [destruct (all_sizes_known l) eqn:Hl |..];
        try (exfalso; apply Hno; by eauto);
        cbn; (split; [discriminate | intros [_ [=]]]).
  - unfold ListColumnRepresentation_as_feature_spec; cbn.
    destruct (_dtype_to_domain (Domain_dtype d)) as [d'|e]; cbn.
    + split; [intros [= -> <-]; by split | intros [[= ->] ->]; reflexivity].
    + split; [discriminate | intros [[=] _]].
  - destruct sh as [[[l|]]|].
    + rewrite SparseColumnRepresentation_as_feature_spec_known_rank.
      destruct ind as [|[nm srt] [|? ?]], l as [|[n] [|? ?]]; cbn;
        try (split; [discriminate | intros (_ & Hlen & axis & Hax);
                                     discriminate Hlen || discriminate Hax]).
      destruct (_dtype_to_domain (Domain_dtype d)) as [d'|e]; cbn.
      * split; [intros [= ->]; eauto | intros [[= ->] _]; reflexivity].
      * split; [discriminate | intros [[=] _]].
    + unfold SparseColumnRepresentation_as_feature_spec; cbn.
      case_bool_decide; cbn;
        (split; [discriminate | intros (_ & _ & axis & [=])]).
    + unfold SparseColumnRepresentation_as_feature_spec; cbn.
      case_bool_decide; cbn;
        (split; [discriminate | intros (_ & _ & axis & [=])]).
Qed.

Lemma Schema_new_column_schemas (d : gmap string ColumnSchema) :
  Schema_new (Some d) = mk_Schema d.
Proof. unfold Schema_new. case_decide; by subst. Qed.

Lemma column_round_trip_inv (c c' : ColumnSchema) (y : ParseFeature) :
  ColumnSchema_as_feature_spec c = Ok y →
  _from_parse_feature y = Ok c' →
  column_round_trip c = Ok c'.
Proof. unfold column_round_trip. intros H1 H2. rewrite H1. exact H2. Qed.

Lemma option_Forall2_Some_l {A B} (R : A → B → Prop) x o :
  option_Forall2 R (Some x) o → ∃ y, o = Some y ∧ R x y.
Proof. inversion 1; eauto. Qed.

Lemma option_Forall2_Some_r {A B} (R : A → B → Prop) o y :
  option_Forall2 R o (Some y) → ∃ x, o = Some x ∧ R x y.
Proof. inversion 1; eauto. Qed.

Lemma option_Forall2_None_l {A B} (R : A → B → Prop) o :
  option_Forall2 R None o → o = None.
Proof. by inversion 1. Qed.

(** C1, as the code has it: a schema comes back from its feature spec when
    every column has the domain that [_dtype_to_domain] gives its dtype, a
    fixed column has a fixed-size shape, a list column has the shape of a
    single axis of unknown size, and a sparse column has one index field and
    one axis. *)
Theorem schema_round_trip_ok (s : Schema) :
  (∀ key c, column_schemas s !! key = Some c → round_trips c) →
  schema_round_trip s = Ok s.
Proof.
  intros Hall. destruct s as [cols]; cbn in Hall.
  unfold schema_round_trip, Schema_as_feature_spec, from_feature_spec; cbn.
  destruct (dict_comprehension_total ColumnSchema_as_feature_spec cols)
    as [fs Hfs].
  { intros key c Hc. apply Hall, column_round_trip_spec in Hc.
    unfold column_round_trip in Hc.
    destruct (ColumnSchema_as_feature_spec c); [by eexists | discriminate]. }
  rewrite Hfs; cbn.
  pose proof (dict_comprehension_lookup _ _ _ Hfs) as Hrel1.
  assert (Hback : ∀ key y, fs !! key = Some y →
            ∃ c, cols !! key = Some c ∧ _from_parse_feature y = Ok c).
  { intros key y Hy. specialize (Hrel1 key). rewrite Hy in Hrel1.
    apply option_Forall2_Some_r in Hrel1 as (c & Hc & Hcy).
    exists c. split; [exact Hc |].
    apply Hall, column_round_trip_spec in Hc.
    unfold column_round_trip in Hc. by rewrite Hcy in Hc. }
  destruct (dict_comprehension_total _from_parse_feature fs) as [d2 Hd2].
  { intros key y Hy. destruct (Hback key y Hy) as (c & _ & Hc). eauto. }
  rewrite Hd2; cbn. rewrite Schema_new_column_schemas. do 2 f_equal.
  pose proof (dict_comprehension_lookup _ _ _ Hd2) as Hrel2.
  apply map_eq. intros key. specialize (Hrel1 key). specialize (Hrel2 key).
  destruct (cols !! key) as [c|] eqn:Hc.
  - apply option_Forall2_Some_l in Hrel1 as (y & Hy & _).
    rewrite Hy in Hrel2.
    apply option_Forall2_Some_l in Hrel2 as (c' & Hc' & Hyc').
    destruct (Hback key y Hy) as (c0 & Hc0 & Hyc0).
    rewrite Hc'. congruence.
  - apply option_Forall2_None_l in Hrel1. rewrite Hrel1 in Hrel2.
    by apply option_Forall2_None_l in Hrel2.
Qed.

(** The condition is needed: a schema that comes back has only such
    columns. *)
Lemma schema_round_trip_only (s : Schema) :
  schema_round_trip s = Ok s →
  ∀ key c, column_schemas s !! key = Some c → round_trips c.
Proof.
  destruct s as [cols].
  unfold schema_round_trip, Schema_as_feature_spec, from_feature_spec; cbn.
  intros Hrt key c Hc.
  destruct (dict_comprehension _ cols) as [fs|e] eqn:Hfs; cbn in Hrt;
    [| discriminate].
  destruct (dict_comprehension _ fs) as [d2|e] eqn:Hd2; cbn in Hrt;
    [| discriminate].
  rewrite Schema_new_column_schemas in Hrt. injection Hrt as ->.
  pose proof (dict_comprehension_lookup _ _ _ Hfs key) as Hrel1.
  pose proof (dict_comprehension_lookup _ _ _ Hd2 key) as Hrel2.
  rewrite Hc in Hrel1, Hrel2.
  apply option_Forall2_Some_l in Hrel1 as (y & Hy & Hcy).
  rewrite Hy in Hrel2.
  apply option_Forall2_Some_r in Hrel2 as (y' & [= <-] & Hyc).
  apply column_round_trip_spec. by eapply column_round_trip_inv.
Qed.

(** ** Examples *)

Example fixed_column_round_trip : column_round_trip fixed_column = Ok fixed_column.
Proof. reflexivity. Qed.

Example sparse_column_round_trip :
  column_round_trip sparse_column = Ok sparse_column.
Proof. reflexivity. Qed.

Example sized_list_column_round_trip :
  column_round_trip sized_list_column = Ok (var_len_column (IntDomain tf.int64)).
Proof. reflexivity. Qed.

Example three_columns_as_feature_spec :
  Schema_as_feature_spec three_columns
  = Ok (<["f" := FixedLenFeature (Some [Some 3%N]) tf.int64 (Some (PyInt 0))]>
        (<["l" := VarLenFeature tf.string]>
         {["s" := SparseFeature "idx" "val" tf.float32 (Some 10%N) true]})).
Proof. vm_compute. reflexivity. Qed.

Example merge_two :
  Schema_merge (mk_Schema {["f" := fixed_column]})
               (mk_Schema (<["l" := list_column]> {["s" := sparse_column]}))
  = (three_columns, Ok ()).
Proof. vm_compute. reflexivity. Qed.

(** A shared name ends the loop; the names that came before it are already
    in the receiver. *)
Example merge_shared_first :
  merge_loop {["l" := fixed_column]} [("l", list_column); ("s", sparse_column)]
  = ({["l" := fixed_column]}, Raise (NotImplementedError merge_msg)).
Proof. vm_compute. reflexivity. Qed.

Example merge_shared_last :
  merge_loop {["l" := fixed_column]} [("s", sparse_column); ("l", list_column)]
  = (<["s" := sparse_column]> {["l" := fixed_column]},
     Raise (NotImplementedError merge_msg)).
Proof. vm_compute. reflexivity. Qed.

(** ** Instances *)

Lemma schema_round_trip_ok_witness :
  schema_round_trip three_columns = Ok three_columns.
Proof.
  apply schema_round_trip_ok. unfold three_columns; cbn [column_schemas].
  intros key c Hc.
  apply lookup_insert_Some in Hc as [[_ <-]|[_ Hc]];
    [split; reflexivity |].
  apply lookup_insert_Some in Hc as [[_ <-]|[_ Hc]];
    [split; reflexivity |].
  apply lookup_singleton_Some in Hc as [_ <-].
  split; [reflexivity |]. split; [reflexivity | by eexists].
Defined.

(** C1, a schema that meets the preconditions of its representations and does
    not come back: the known size of a list column is lost on the way. *)
Lemma schema_round_trip_sized_list :
  let s := mk_Schema {["x" := sized_list_column]} in
  (∀ key c, column_schemas s !! key = Some c → representation_precondition c)
  ∧ schema_round_trip s
    = Ok (mk_Schema {["x" := var_len_column (IntDomain tf.int64)]})
  ∧ schema_round_trip s ≠ Ok s.
Proof.
  cbv zeta. split; [| split].
  - cbn [column_schemas]. intros key c Hc.
    apply lookup_singleton_Some in Hc as [_ <-]. exact I.
  - vm_compute. reflexivity.
  - intros Hrt.
    pose proof (schema_round_trip_only _ Hrt "x" sized_list_column
                  (lookup_singleton_eq _ _)) as [_ Hshape].
    discriminate Hshape.
Qed.

Lemma Schema_merge_disjoint_witness :
  let self := mk_Schema {["f" := fixed_column]} in
  let other := mk_Schema (<["l" := list_column]> {["s" := sparse_column]}) in
  let merged := column_schemas self ∪ column_schemas other in
  merge_loop (column_schemas self) (map_to_list (column_schemas other))
    = (merged, Ok ())
  ∧ Schema_merge self other = (mk_Schema merged, Ok ())
  ∧ size merged = size (column_schemas self) + size (column_schemas other)
  ∧ ∀ k c, merged !! k = Some c ↔
           column_schemas self !! k = Some c ∨ column_schemas other !! k = Some c.
Proof.
  cbv zeta. apply Schema_merge_disjoint.
  - cbn [column_schemas]. apply map_disjoint_dom.
    apply map_disjoint_singleton_l. reflexivity.
  - apply items_of_map_to_list.
Defined.

Lemma Schema_merge_shared_witness :
  let self := mk_Schema {["l" := fixed_column]} in
  let other := mk_Schema (<["l" := list_column]> {["s" := sparse_column]}) in
  (∃ d, merge_loop (column_schemas self) (map_to_list (column_schemas other))
        = (d, Raise (NotImplementedError merge_msg))
        ∧ column_schemas self ⊆ d)
  ∧ (∃ self', Schema_merge self other
              = (self', Raise (NotImplementedError merge_msg))
              ∧ column_schemas self ⊆ column_schemas self').
Proof.
  cbv zeta. apply (Schema_merge_shared _ _ _ "l").
  - cbn [column_schemas]. rewrite lookup_singleton_eq. by eexists.
  - cbn [column_schemas]. rewrite lookup_insert_eq. by eexists.
  - apply items_of_map_to_list.
Defined.
(** * Further properties *)

(** ** Shapes *)

Lemma fmap_axis_size_mk_Axis (dims : list (option N)) :
  axis_size <$> (mk_Axis <$> dims) = dims.
Proof. induction dims as [|d dims IH]; [reflexivity |]. cbn. by rewrite IH. Qed.

Lemma all_sizes_known_mk_Axis (dims : list (option N)) :
  all_sizes_known (mk_Axis <$> dims) = all_known dims.
Proof.
  induction dims as [|[n|] dims IH]; [reflexivity | | reflexivity].
  cbn. exact IH.
Qed.

Lemma all_known_Some (dims : list (option N)) :
  all_known dims = true ↔ ∃ sizes : list N, dims = Some <$> sizes.
Proof.
  induction dims as [|[n|] dims IH]; cbn.
  - split; [by exists [] | reflexivity].
  - rewrite IH. split.
    + intros [sizes ->]. by exists (n :: sizes).
    + intros [[|n' sizes] [=]]. subst. by exists sizes.
  - split; [discriminate | intros [[|n' sizes] [=]]].
Qed.

(** X1: a tensor shape and its logical shape determine each other: the
    translation without the batch option never raises, [tf_shape] undoes it,
    and it undoes [tf_shape]. *)
Theorem tf_shape_logical_shape_inverse :
  (∀ ts : TensorShape,
     ∃ s, _tf_shape_to_logical_shape ts false = Ok s ∧ tf_shape s = ts)
  ∧ (∀ s : LogicalShape, _tf_shape_to_logical_shape (tf_shape s) false = Ok s).
Proof.
  split.
  - intros [dims|]; eexists; (split; [reflexivity |]); [| reflexivity].
    unfold tf_shape; cbn. by rewrite fmap_axis_size_mk_Axis.
  - intros [[l|]]; unfold tf_shape; cbn; [| reflexivity].
    by rewrite fmap_mk_Axis_axis_size.
Qed.

(** X2: [is_fixed_size] holds exactly when the shape has a known rank and only
    known dimensions, that is when [tf_shape()] is a list of numbers. *)
Theorem is_fixed_size_fully_defined (s : LogicalShape) :
  (is_fixed_size s = true ↔ ∃ sizes : list N, tf_shape s = Some (Some <$> sizes))
  ∧ is_fixed_size s
    = match tf_shape s with Some dims => all_known dims | None => false end.
Proof.
  assert (Heq : is_fixed_size s
                = match tf_shape s with
                  | Some dims => all_known dims | None => false end).
  { destruct s as [[l|]]; unfold is_fixed_size, tf_shape; cbn; [| reflexivity].
    by rewrite <-(all_sizes_known_mk_Axis (axis_size <$> l)),
      fmap_mk_Axis_axis_size. }
  split; [| exact Heq]. rewrite Heq.
  destruct (tf_shape s) as [dims|].
  - rewrite all_known_Some. split.
    + intros [sizes ->]. by exists sizes.
    + intros [sizes [= ->]]. by exists sizes.
  - split; [discriminate | intros [sizes [=]]].
Qed.

(** ** Inference from dense tensors *)

Lemma _dtype_to_domain_Ok (dtype : DType) (d : Domain) :
  _dtype_to_domain dtype = Ok d →
  supported dtype = true ∧ Domain_dtype d = dtype
  ∧ _dtype_to_domain (Domain_dtype d) = Ok d.
Proof.
  intros Hd. pose proof (_dtype_to_domain_supported dtype) as Hs.
  destruct (supported dtype).
  - destruct Hs as (d' & Hd' & Hdt). rewrite Hd in Hd'. injection Hd' as <-.
    by rewrite Hdt.
  - rewrite Hd in Hs. discriminate Hs.
Qed.

Lemma _dtype_to_domain_raises (dtype : DType) :
  raises (_dtype_to_domain dtype) = negb (supported dtype).
Proof.
  pose proof (_dtype_to_domain_supported dtype) as Hs.
  destruct (supported dtype); [by destruct Hs as (d & -> & _) | by rewrite Hs].
Qed.

(** X3: inference does not look at the batch size: two dense tensors of one
    dtype whose shapes differ in the leading dimension only are given the
    same outcome. *)
Theorem infer_column_schema_batch_blind
    (dtype : DType) (batch1 batch2 : option N) (dims : list (option N)) :
  infer_column_schema_from_tensor (DenseTensor dtype (Some (batch1 :: dims)))
  = infer_column_schema_from_tensor (DenseTensor dtype (Some (batch2 :: dims))).
Proof. reflexivity. Qed.

(** X4: inference on a dense tensor raises exactly when the dtype is not a
    listed one or the rank is known to be 0, and the dtype is looked at
    first: an unlisted dtype gives the dtype error whatever the shape. *)
Theorem infer_column_schema_from_dense_tensor_raises
    (dtype : DType) (ts : TensorShape) :
  (raises (infer_column_schema_from_tensor (DenseTensor dtype ts)) = true ↔
     supported dtype = false ∨ ts = Some [])
  ∧ (supported dtype = false →
       infer_column_schema_from_tensor (DenseTensor dtype ts)
       = Raise (ValueError
                  ("DatasetSchema does not yet support dtype: " +:+ tf.str dtype)))
  ∧ (supported dtype = true →
       ts = Some [] →
       infer_column_schema_from_tensor (DenseTensor dtype ts)
       = Raise (ValueError rank_msg)).
Proof.
  pose proof (_dtype_to_domain_supported dtype) as Hs.
  unfold infer_column_schema_from_tensor; cbn [Tensor_dtype get_shape].
  destruct (supported dtype).
  - destruct Hs as (d & -> & _). cbn.
    destruct ts as [[|b dims]|]; cbn; (split; [| split]);
      try discriminate; try reflexivity; try (intros; reflexivity);
      try (split; [discriminate | intros [H|H]; discriminate H]).
    split; [intros _; by right | reflexivity].
  - rewrite Hs. cbn. split; [| split]; try reflexivity; try discriminate.
    split; [intros _; by left | reflexivity].
Qed.

(** X5: whatever the tensor, an inferred column has the domain
    [_dtype_to_domain] gives the tensor's dtype, a shape that is present, and
    either the list representation or the fixed representation without
    default value: inference never yields a sparse representation or a
    default value. *)
Theorem infer_column_schema_from_tensor_result (t : Tensor) (c : ColumnSchema) :
  infer_column_schema_from_tensor t = Ok c →
  _dtype_to_domain (Tensor_dtype t) = Ok (domain (logical_column c))
  ∧ Domain_dtype (domain (logical_column c)) = Tensor_dtype t
  ∧ is_Some (shape (logical_column c))
  ∧ representation c
    = match t with
      | SparseTensor _ _ => ListColumnRepresentation
      | DenseTensor _ _ => FixedColumnRepresentation None
      end.
Proof.
  unfold infer_column_schema_from_tensor.
  destruct t as [dtype ts|dtype ts]; cbn [Tensor_dtype get_shape];
    destruct (_dtype_to_domain dtype) as [d|e] eqn:Hd; cbn;
    try discriminate.
  - destruct (_tf_shape_to_logical_shape ts true) as [s|e]; cbn;
      [| discriminate].
    intros [= <-]; cbn. apply _dtype_to_domain_Ok in Hd as (_ & Hdt & _).
    repeat split; eauto.
  - intros [= <-]; cbn. apply _dtype_to_domain_Ok in Hd as (_ & Hdt & _).
    repeat split; eauto.
Qed.

Lemma infer_column_schema_from_tensor_result_witness :
  let t := DenseTensor tf.float32 (Some [None; Some 4%N; Some 2%N]) in
  ∃ c, infer_column_schema_from_tensor t = Ok c
       ∧ _dtype_to_domain (Tensor_dtype t) = Ok (domain (logical_column c))
       ∧ Domain_dtype (domain (logical_column c)) = Tensor_dtype t
       ∧ is_Some (shape (logical_column c))
       ∧ representation c = FixedColumnRepresentation None.
Proof.
  cbv zeta. eexists. split; [reflexivity |].
  apply (infer_column_schema_from_tensor_result
           (DenseTensor tf.float32 (Some [None; Some 4%N; Some 2%N]))).
  reflexivity.
Defined.

(** X6: an inferred column comes back from its feature spec exactly when it
    was inferred from a sparse tensor, or from a dense tensor whose
    dimensions after the batch dimension are all known. *)
Theorem infer_column_schema_round_trips (t : Tensor) (c : ColumnSchema) :
  infer_column_schema_from_tensor t = Ok c →
  (column_round_trip c = Ok c ↔
     match t with
     | SparseTensor _ _ => True
     | DenseTensor _ ts => inner_dims_known ts = true
     end).
Proof.
  unfold infer_column_schema_from_tensor. rewrite column_round_trip_spec.
  destruct t as [dtype ts|dtype ts]; cbn [Tensor_dtype get_shape];
    destruct (_dtype_to_domain dtype) as [d|e] eqn:Hd; cbn;
    try discriminate;
    apply _dtype_to_domain_Ok in Hd as (_ & _ & Hwf).
  - destruct ts as [[|b dims]|]; cbn; try discriminate.
    + intros [= <-]. unfold round_trips, has_fixed_size, is_fixed_size; cbn.
      rewrite drop_0, all_sizes_known_mk_Axis. split; [by intros [_ ?] | by split].
    + intros [= <-]. unfold round_trips, has_fixed_size, is_fixed_size; cbn.
      split; [by intros [_ ?] | discriminate].
  - intros [= <-]. unfold round_trips; cbn. split; [done | by split].
Qed.

Lemma infer_column_schema_round_trips_witness :
  let t := DenseTensor tf.float32 (Some [None; Some 4%N; Some 2%N]) in
  ∃ c, infer_column_schema_from_tensor t = Ok c ∧ column_round_trip c = Ok c.
Proof.
  cbv zeta. eexists. split; [reflexivity |].
  apply (infer_column_schema_round_trips
           (DenseTensor tf.float32 (Some [None; Some 4%N; Some 2%N])));
    reflexivity.
Defined.

(** ** Placeholders *)

Lemma shape_as_list_spec (lc : LogicalColumnSchema) :
  shape_as_list lc =
    match shape lc with
    | None =>
      Raise (AttributeError "'NoneType' object has no attribute 'tf_shape'")
    | Some (mk_LogicalShape None) =>
      Raise (ValueError "as_list() is not defined on an unknown TensorShape.")
    | Some (mk_LogicalShape (Some l)) => Ok (axis_size <$> l)
    end.
Proof. unfold shape_as_list. by destruct (shape lc) as [[[l|]]|]. Qed.

Lemma FixedColumnRepresentation_as_batched_placeholder_cases
    (lc : LogicalColumnSchema) :
  FixedColumnRepresentation_as_batched_placeholder lc =
    match shape lc with
    | Some (mk_LogicalShape (Some l)) =>
      if all_sizes_known l
      then Ok (placeholder (Domain_dtype (domain lc))
                 (None :: (axis_size <$> l)))
      else Raise (ValueError unknown_size_msg)
    | _ => Raise (ValueError unknown_size_msg)
    end.
Proof.
  unfold FixedColumnRepresentation_as_batched_placeholder.
  destruct (shape lc) as [[[l|]]|]; try reflexivity.
  unfold is_fixed_size; cbn. by destruct (all_sizes_known l).
Qed.

(** X7: the fixed representation gives a placeholder exactly when it gives a
    feature spec, and then the placeholder has the dtype of the feature spec
    and its shape behind an unknown batch dimension; otherwise both raise the
    unknown-size error. *)
Theorem FixedColumnRepresentation_placeholder_and_feature_spec
    (default_value : option PyValue) (lc : LogicalColumnSchema) :
  match FixedColumnRepresentation_as_feature_spec default_value lc with
  | Ok f =>
    ∃ dims, f = FixedLenFeature (Some dims) (Domain_dtype (domain lc))
                  default_value
            ∧ FixedColumnRepresentation_as_batched_placeholder lc
              = Ok (placeholder (Domain_dtype (domain lc)) (None :: dims))
  | Raise e =>
    e = ValueError unknown_size_msg
    ∧ FixedColumnRepresentation_as_batched_placeholder lc = Raise e
  end.
Proof.
  rewrite FixedColumnRepresentation_as_feature_spec_cases,
    FixedColumnRepresentation_as_batched_placeholder_cases.
  destruct (shape lc) as [[[l|]]|]; [destruct (all_sizes_known l) |..]; eauto.
Qed.

(** X8: the list and the sparse representation give the same placeholder,
    made from the dtype and the shape alone.  It exists exactly when the rank
    of the shape is known, whatever the number of axes and of index fields;
    with an unknown rank [as_list()] raises, with no shape at all the
    attribute access does. *)
Theorem sparse_placeholder_of_shape (value_field_name : string)
    (index_fields : list SparseIndexField) (lc : LogicalColumnSchema) :
  SparseColumnRepresentation_as_batched_placeholder value_field_name
    index_fields lc
  = ListColumnRepresentation_as_batched_placeholder lc
  ∧ ListColumnRepresentation_as_batched_placeholder lc
    = match shape lc with
      | None =>
        Raise (AttributeError "'NoneType' object has no attribute 'tf_shape'")
      | Some (mk_LogicalShape None) =>
        Raise (ValueError "as_list() is not defined on an unknown TensorShape.")
      | Some (mk_LogicalShape (Some l)) =>
        Ok (sparse_placeholder (Domain_dtype (domain lc))
              (None :: (axis_size <$> l)))
      end.
Proof.
  split; [reflexivity |].
  unfold ListColumnRepresentation_as_batched_placeholder.
  rewrite shape_as_list_spec. by destruct (shape lc) as [[[l|]]|].
Qed.

(** X9: inference undoes the placeholder of a fixed column.  When a column
    gets a dense placeholder, inferring a column from the tensor that
    [tf.placeholder] returns gives the column back exactly when its
    representation has no default value and its domain is the one
    [_dtype_to_domain] gives its dtype. *)
Theorem infer_column_schema_of_placeholder (c : ColumnSchema)
    (dtype : DType) (dims : list (option N)) :
  ColumnSchema_as_batched_placeholder c = Ok (placeholder dtype dims) →
  (infer_column_schema_from_tensor (placeholder_tensor dtype dims) = Ok c ↔
     representation c = FixedColumnRepresentation None
     ∧ _dtype_to_domain (Domain_dtype (domain (logical_column c)))
       = Ok (domain (logical_column c))).
Proof.
  destruct c as [[d sh] r].
  unfold ColumnSchema_as_batched_placeholder; cbn.
  destruct r as [dv| |vf ind]; cbn.
  - rewrite FixedColumnRepresentation_as_batched_placeholder_cases; cbn.
    destruct sh as [[[l|]]|]; try discriminate.
    destruct (all_sizes_known l); [| discriminate].
    intros [= <- <-].
    unfold infer_column_schema_from_tensor, placeholder_tensor;
      cbn [Tensor_dtype get_shape].
    destruct (_dtype_to_domain (Domain_dtype d)) as [d'|e]; cbn.
    + rewrite drop_0, fmap_mk_Axis_axis_size. split.
      * by intros [= -> <-].
      * by intros [[= ->] [= ->]].
    + split; [discriminate | intros [_ [=]]].
  - unfold ListColumnRepresentation_as_batched_placeholder.
    destruct (shape_as_list _); discriminate.
  - unfold SparseColumnRepresentation_as_batched_placeholder.
    destruct (shape_as_list _); discriminate.
Qed.

(** X10: the placeholder of a column inferred from a dense tensor of known
    rank has the dtype of the tensor and its shape, with the batch dimension
    unknown; when a dimension after the batch dimension is unknown the
    column has no placeholder. *)
Theorem placeholder_of_inferred_column (dtype : DType) (batch : option N)
    (dims : list (option N)) (c : ColumnSchema) :
  infer_column_schema_from_tensor (DenseTensor dtype (Some (batch :: dims)))
    = Ok c →
  ColumnSchema_as_batched_placeholder c
  = if all_known dims then Ok (placeholder dtype (None :: dims))
    else Raise (ValueError unknown_size_msg).
Proof.
  unfold infer_column_schema_from_tensor; cbn [Tensor_dtype get_shape].
  destruct (_dtype_to_domain dtype) as [d|e] eqn:Hd; cbn; [| discriminate].
  apply _dtype_to_domain_Ok in Hd as (_ & Hdt & _).
  rewrite drop_0. intros [= <-].
  unfold ColumnSchema_as_batched_placeholder;
    cbn [representation logical_column
         ColumnRepresentation_as_batched_placeholder].
  rewrite FixedColumnRepresentation_as_batched_placeholder_cases;
    cbn [shape domain].
  by rewrite all_sizes_known_mk_Axis, fmap_axis_size_mk_Axis, Hdt.
Qed.

(** ** Dictionary comprehensions, continued *)

Lemma dict_comprehension_Ok {A B} (f : A → result B)
    (d : gmap string A) (d' : gmap string B) :
  dict_comprehension f d = Ok d' ↔
  ∀ k, option_Forall2 (λ v y, f v = Ok y) (d !! k) (d' !! k).
Proof.
  split; [apply dict_comprehension_lookup |].
  intros Hrel.
  destruct (dict_comprehension_total f d) as [d'' Hd''].
  { intros k v Hv. specialize (Hrel k). rewrite Hv in Hrel.
    apply option_Forall2_Some_l in Hrel as (y & _ & Hy). eauto. }
  rewrite Hd''. f_equal. apply map_eq. intros k.
  pose proof (dict_comprehension_lookup _ _ _ Hd'' k) as Hrel'.
  specialize (Hrel k).
  destruct (d !! k) as [v|].
  - apply option_Forall2_Some_l in Hrel as (y & -> & Hy).
    apply option_Forall2_Some_l in Hrel' as (y' & -> & Hy'). congruence.
  - apply option_Forall2_None_l in Hrel, Hrel'. congruence.
Qed.

Lemma dict_comprehension_raises {A B} (f : A → result B) (d : gmap string A) :
  raises (dict_comprehension f d) = true ↔
  ∃ k v, d !! k = Some v ∧ raises (f v) = true.
Proof.
  split.
  - intros Hr.
    destruct (decide (map_Forall (λ _ v, raises (f v) = false) d))
      as [Hall|Hex].
    + destruct (dict_comprehension_total f d) as [d' Hd'].
      { intros k v Hv. specialize (Hall k v Hv). cbn in Hall.
        destruct (f v); [eauto | discriminate]. }
      rewrite Hd' in Hr. discriminate.
    + apply map_not_Forall in Hex; [| apply _].
      destruct Hex as (k & v & Hv & Hnot). exists k, v. split; [exact Hv |].
      by destruct (raises (f v)).
  - intros (k & v & Hv & Hr).
    destruct (dict_comprehension f d) as [d'|e] eqn:Hd; [| reflexivity].
    pose proof (dict_comprehension_lookup _ _ _ Hd k) as Hrel.
    rewrite Hv in Hrel. apply option_Forall2_Some_l in Hrel as (y & _ & Hy).
    rewrite Hy in Hr. discriminate.
Qed.

Lemma dict_comprehension_dom {A B} (f : A → result B)
    (d : gmap string A) (d' : gmap string B) :
  dict_comprehension f d = Ok d' → dom d' = dom d.
Proof.
  intros Hd. apply set_eq. intros k. rewrite !elem_of_dom.
  pose proof (dict_comprehension_lookup _ _ _ Hd k) as Hrel.
  destruct Hrel; split; intros [? [=]]; eauto.
Qed.

(** Two comprehensions in a row give the dictionary back when the two
    functions in a row give every value back. *)
Lemma dict_comprehension_round_trip {A B} (f : A → result B)
    (g : B → result A) (d : gmap string A) :
  (d1 ← dict_comprehension f d; dict_comprehension g d1) = Ok d ↔
  ∀ k v, d !! k = Some v → (y ← f v; g y) = Ok v.
Proof.
  split.
  - intros Hrt k v Hv.
    destruct (dict_comprehension f d) as [d1|e] eqn:Hd1; cbn in Hrt;
      [| discriminate].
    pose proof (dict_comprehension_lookup _ _ _ Hd1 k) as Hrel1.
    pose proof (dict_comprehension_lookup _ _ _ Hrt k) as Hrel2.
    rewrite Hv in Hrel1, Hrel2.
    apply option_Forall2_Some_l in Hrel1 as (y & Hy & Hfv).
    rewrite Hy in Hrel2.
    apply option_Forall2_Some_r in Hrel2 as (y' & [= <-] & Hgy).
    rewrite Hfv. exact Hgy.
  - intros Hall.
    assert (Hd1 : dict_comprehension f d
                  = Ok (omap (λ v, match f v with Ok y => Some y
                                              | Raise _ => None end) d)).
    { apply dict_comprehension_Ok. intros k. rewrite lookup_omap.
      destruct (d !! k) as [v|] eqn:Hv; cbn; [| constructor].
      specialize (Hall k v Hv).
      destruct (f v) eqn:Hf; [by constructor | discriminate]. }
    rewrite Hd1; cbn. apply dict_comprehension_Ok. intros k.
    rewrite lookup_omap.
    destruct (d !! k) as [v|] eqn:Hv; cbn; [| constructor].
    specialize (Hall k v Hv). destruct (f v) as [y|e]; [| discriminate].
    constructor. exact Hall.
Qed.

(** ** Schemas and feature specs *)

(** X11: a schema has a feature spec exactly when each of its columns has
    one: [as_feature_spec] raises as soon as one column does, and otherwise
    returns a dictionary with the same names, each bound to the feature spec
    of its column. *)
Theorem Schema_as_feature_spec_columns (s : Schema) :
  (raises (Schema_as_feature_spec s) = true ↔
     ∃ key c, column_schemas s !! key = Some c
              ∧ raises (ColumnSchema_as_feature_spec c) = true)
  ∧ (∀ fs, Schema_as_feature_spec s = Ok fs →
           dom fs = dom (column_schemas s)
           ∧ ∀ key c, column_schemas s !! key = Some c →
                      ∃ f, ColumnSchema_as_feature_spec c = Ok f
                           ∧ fs !! key = Some f).
Proof.
  unfold Schema_as_feature_spec. split.
  - apply dict_comprehension_raises.
  - intros fs Hfs. split; [by eapply dict_comprehension_dom |].
    intros key c Hc.
    pose proof (dict_comprehension_lookup _ _ _ Hfs key) as Hrel.
    rewrite Hc in Hrel. apply option_Forall2_Some_l in Hrel as (f & ? & ?).
    eauto.
Qed.

Lemma _from_parse_feature_raises (f : ParseFeature) :
  raises (_from_parse_feature f) = negb (accepted f).
Proof.
  destruct f as [ts dtype dv|ts dtype am dv|dtype|ik vk dtype n srt|repr];
    cbn; try reflexivity;
    rewrite <-_dtype_to_domain_raises;
    destruct (_dtype_to_domain dtype) as [d|e]; cbn; try reflexivity.
  by destruct ts.
Qed.

(** X12: [from_feature_spec] raises exactly when the dictionary holds a
    feature spec that is a [FixedLenSequenceFeature], an object of another
    class, or of a dtype outside the four tables; otherwise it returns a
    schema with the same names. *)
Theorem from_feature_spec_accepts (fs : gmap string ParseFeature) :
  (raises (from_feature_spec fs) = true ↔
     ∃ key f, fs !! key = Some f ∧ accepted f = false)
  ∧ (∀ s, from_feature_spec fs = Ok s →
          dom (column_schemas s) = dom fs
          ∧ ∀ key f, fs !! key = Some f →
                     ∃ c, _from_parse_feature f = Ok c
                          ∧ column_schemas s !! key = Some c).
Proof.
  unfold from_feature_spec. split.
  - transitivity
      (raises (dict_comprehension _from_parse_feature fs) = true).
    { by destruct (dict_comprehension _from_parse_feature fs). }
    rewrite dict_comprehension_raises.
    split; intros (key & f & Hf & Hr); exists key, f; (split; [exact Hf |]);
      rewrite _from_parse_feature_raises in *; by destruct (accepted f).
  - intros s Hs.
    destruct (dict_comprehension _from_parse_feature fs) as [d|e] eqn:Hd;
      cbn in Hs; [| discriminate].
    rewrite Schema_new_column_schemas in Hs. injection Hs as <-.
    cbn [column_schemas]. split; [by eapply dict_comprehension_dom |].
    intros key f Hf.
    pose proof (dict_comprehension_lookup _ _ _ Hd key) as Hrel.
    rewrite Hf in Hrel. apply option_Forall2_Some_l in Hrel as (c & ? & ?).
    eauto.
Qed.

Lemma feature_round_trip_spec (f : ParseFeature) :
  feature_round_trip f = Ok f ↔ feature_comes_back f = true.
Proof.
  unfold feature_round_trip, ColumnSchema_as_feature_spec.
  destruct f as [ts dtype dv|ts dtype am dv|dtype|ik vk dtype n srt|repr];
    cbn -[FixedColumnRepresentation_as_feature_spec];
    try (split; discriminate);
    pose proof (_dtype_to_domain_supported dtype) as Hs;
    (destruct (supported dtype);
     [destruct Hs as (d & Hd & <-); rewrite Hd
     | rewrite Hs; try destruct ts; split; discriminate]).
  - destruct ts as [dims|];
      cbn -[FixedColumnRepresentation_as_feature_spec];
      rewrite FixedColumnRepresentation_as_feature_spec_cases; cbn;
      [| split; discriminate].
    rewrite all_sizes_known_mk_Axis, fmap_axis_size_mk_Axis.
    destruct (all_known dims); [by split | split; discriminate].
  - by split.
  - by split.
Qed.

(** X13: the round trip that starts from a feature spec.  Turning a
    dictionary of feature specs into a schema and the schema into feature
    specs gives the dictionary back exactly when every feature spec is of
    one of the three classes, over a listed dtype, and every
    [FixedLenFeature] has a shape of known rank and known dimensions. *)
Theorem feature_spec_round_trip_spec (fs : gmap string ParseFeature) :
  feature_spec_round_trip fs = Ok fs ↔
  ∀ key f, fs !! key = Some f → feature_comes_back f = true.
Proof.
  unfold feature_spec_round_trip, from_feature_spec, Schema_as_feature_spec.
  transitivity
    ((d ← dict_comprehension _from_parse_feature fs;
      dict_comprehension ColumnSchema_as_feature_spec d) = Ok fs).
  { destruct (dict_comprehension _from_parse_feature fs) as [d|e]; cbn;
      [| done]. by rewrite Schema_new_column_schemas. }
  rewrite dict_comprehension_round_trip.
  split; intros H key f Hf; apply feature_round_trip_spec; by eapply H.
Qed.

(** X14: for a schema that has fixed columns only, the placeholders exist
    exactly when the feature spec does. *)
Theorem fixed_schema_placeholders_and_feature_spec (s : Schema) :
  (∀ key c, column_schemas s !! key = Some c →
            ∃ dv, representation c = FixedColumnRepresentation dv) →
  raises (Schema_as_batched_placeholders s) = raises (Schema_as_feature_spec s).
Proof.
  intros Hfixed. apply eq_true_iff_eq.
  unfold Schema_as_batched_placeholders, Schema_as_feature_spec.
  rewrite !dict_comprehension_raises.
  assert (Hcol : ∀ key c, column_schemas s !! key = Some c →
            raises (ColumnSchema_as_batched_placeholder c)
            = raises (ColumnSchema_as_feature_spec c)).
  { intros key [lc r] Hc. destruct (Hfixed key _ Hc) as [dv Hdv].
    cbn in Hdv. subst r.
    unfold ColumnSchema_as_batched_placeholder, ColumnSchema_as_feature_spec;
      cbn [representation logical_column
           ColumnRepresentation_as_batched_placeholder
           ColumnRepresentation_as_feature_spec].
    rewrite FixedColumnRepresentation_as_batched_placeholder_cases,
      FixedColumnRepresentation_as_feature_spec_cases.
    destruct (shape lc) as [[[l|]]|]; try reflexivity.
    by destruct (all_sizes_known l). }
  split; intros (key & c & Hc & Hr); exists key, c; (split; [exact Hc |]);
    [rewrite <-(Hcol key c Hc) | rewrite (Hcol key c Hc)]; exact Hr.
Qed.

Lemma fixed_schema_placeholders_and_feature_spec_witness :
  raises (Schema_as_batched_placeholders (mk_Schema {["f" := fixed_column]}))
  = raises (Schema_as_feature_spec (mk_Schema {["f" := fixed_column]})).
Proof.
  apply fixed_schema_placeholders_and_feature_spec.
  cbn [column_schemas]. intros key c Hc.
  apply lookup_singleton_Some in Hc as [_ <-]. by eexists.
Defined.

(** ** Merging, continued *)

Lemma merge_loop_bounds (items : list (string * ColumnSchema)) :
  ∀ (self d : gmap string ColumnSchema) (r : result unit),
    merge_loop self items = (d, r) →
    self ⊆ d ∧ d ⊆ self ∪ list_to_map items.
Proof.
  induction items as [|[key value] rest IH]; intros self d r; cbn.
  - intros [= <- <-]. by rewrite (right_id_L ∅ (∪)).
  - destruct (self !! key) as [mine|] eqn:Hkey.
    + intros [= <- <-]. split; [done | apply map_union_subseteq_l].
    + intros Hloop. apply IH in Hloop as [Hsub Hsup]. split.
      * etrans; [| exact Hsub]. by apply insert_subseteq.
      * rewrite <-insert_union_r by done. by rewrite insert_union_l.
Qed.

Lemma Schema_merge_fresh (self other : Schema) :
  column_schemas self ##ₘ column_schemas other →
  Schema_merge self other
  = (mk_Schema (column_schemas self ∪ column_schemas other), Ok ()).
Proof.
  intros Hdisj. unfold Schema_merge. rewrite merge_loop_fresh.
  - by rewrite list_to_map_to_list.
  - apply NoDup_fst_map_to_list.
  - intros k Hk.
    apply (items_of_keys _ _ _ (items_of_map_to_list _)) in Hk as [c Hc].
    by eapply map_disjoint_Some_r.
Qed.

(** X15: [merge] only adds.  Whether it ends normally or with an error, and
    in whatever order the items of [other] come, the receiver afterwards
    still binds each of its names to the column it had, and every other
    binding it has is one of [other]. *)
Theorem Schema_merge_only_adds (self other : Schema)
    (items : list (string * ColumnSchema)) :
  items_of (column_schemas other) items →
  column_schemas self ⊆ (merge_loop (column_schemas self) items).1
  ∧ (merge_loop (column_schemas self) items).1
    ⊆ column_schemas self ∪ column_schemas other.
Proof.
  intros Hitems.
  destruct (merge_loop (column_schemas self) items) as [d r] eqn:Hloop.
  apply merge_loop_bounds in Hloop.
  by rewrite (items_of_list_to_map _ _ Hitems) in Hloop.
Qed.

Lemma Schema_merge_only_adds_witness :
  let self := mk_Schema {["l" := fixed_column]} in
  let other := mk_Schema (<["l" := list_column]> {["s" := sparse_column]}) in
  let items := map_to_list (column_schemas other) in
  column_schemas self ⊆ (merge_loop (column_schemas self) items).1
  ∧ (merge_loop (column_schemas self) items).1
    ⊆ column_schemas self ∪ column_schemas other.
Proof.
  cbv zeta. apply Schema_merge_only_adds. apply items_of_map_to_list.
Defined.

(** X16: [merge] ends without error exactly when the two schemas share no
    column name, in whatever order the items of [other] come. *)
Theorem Schema_merge_ok_iff_disjoint (self other : Schema)
    (items : list (string * ColumnSchema)) :
  items_of (column_schemas other) items →
  ((merge_loop (column_schemas self) items).2 = Ok () ↔
     dom (column_schemas self) ## dom (column_schemas other)).
Proof.
  intros Hitems. split.
  - intros Hok. apply elem_of_disjoint. intros k Hself Hother.
    apply elem_of_dom in Hself, Hother.
    destruct (merge_loop_shared items (column_schemas self)) as (d & Hd & _).
    { exists k. split; [| exact Hself].
      by apply (items_of_keys _ _ _ Hitems). }
    rewrite Hd in Hok. discriminate Hok.
  - intros Hdisj. apply map_disjoint_dom in Hdisj.
    rewrite merge_loop_fresh; [reflexivity | by eapply items_of_NoDup |].
    intros k Hk. apply (items_of_keys _ _ _ Hitems) in Hk as [c Hc].
    by eapply map_disjoint_Some_r.
Qed.

Lemma Schema_merge_ok_iff_disjoint_witness :
  let self := mk_Schema {["f" := fixed_column]} in
  let other := mk_Schema (<["l" := list_column]> {["s" := sparse_column]}) in
  (merge_loop (column_schemas self) (map_to_list (column_schemas other))).2
    = Ok () ↔
  dom (column_schemas self) ## dom (column_schemas other).
Proof.
  cbv zeta. apply Schema_merge_ok_iff_disjoint. apply items_of_map_to_list.
Defined.

(** X17: a failed [merge] is not undone.  When the items of [other] come as
    some new names followed by a name the receiver has, the error leaves the
    receiver with its own columns and the new ones that came first; the
    items after the shared name are not looked at. *)
Theorem merge_loop_stops_at_shared (self : gmap string ColumnSchema)
    (before after : list (string * ColumnSchema))
    (key : string) (value : ColumnSchema) :
  NoDup before.*1 →
  (∀ k, k ∈ before.*1 → self !! k = None) →
  is_Some (self !! key) →
  merge_loop self (before ++ (key, value) :: after)
  = (self ∪ list_to_map before, Raise (NotImplementedError merge_msg)).
Proof.
  revert self. induction before as [|[k0 v0] before IH];
    intros self Hnd Hfresh [mine Hmine]; cbn.
  - rewrite Hmine. by rewrite (right_id_L ∅ (∪)).
  - cbn in Hnd. apply NoDup_cons in Hnd as [Hk0 Hnd].
    assert (Hnew : self !! k0 = None) by (apply Hfresh; cbn; left).
    rewrite Hnew. rewrite IH; [| exact Hnd | |].
    + f_equal. rewrite <-insert_union_l. by apply insert_union_r.
    + intros k Hk. rewrite lookup_insert_ne.
      * apply Hfresh. cbn; by right.
      * intros ->. contradiction.
    + exists mine. rewrite lookup_insert_ne; [exact Hmine |].
      intros ->. congruence.
Qed.

Lemma merge_loop_stops_at_shared_witness :
  merge_loop {["l" := fixed_column]}
    ([("s", sparse_column)] ++ ("l", list_column) :: [("f", fixed_column)])
  = ({["l" := fixed_column]} ∪ list_to_map [("s", sparse_column)],
     Raise (NotImplementedError merge_msg)).
Proof.
  apply merge_loop_stops_at_shared.
  - cbn. apply NoDup_singleton.
  - cbn. intros k Hk. apply list_elem_of_singleton in Hk as ->.
    by apply lookup_singleton_ne.
  - rewrite lookup_singleton_eq. by eexists.
Defined.

(** X18: merging a schema into itself leaves it as it is; it raises the
    error of [ColumnSchema.merge] unless the schema is empty. *)
Theorem Schema_merge_self (s : Schema) :
  Schema_merge s s
  = (s, if decide (column_schemas s = ∅) then Ok ()
        else Raise (NotImplementedError merge_msg)).
Proof.
  destruct s as [cols]. unfold Schema_merge; cbn [column_schemas].
  destruct (map_to_list cols) as [|[key value] rest] eqn:Hitems.
  - apply map_to_list_empty_iff in Hitems as ->. cbn.
    by rewrite decide_True.
  - assert (Hkey : cols !! key = Some value).
    { apply elem_of_map_to_list. rewrite Hitems. by left. }
    cbn. rewrite Hkey. cbn. rewrite decide_False; [done |].
    intros ->. by rewrite lookup_empty in Hkey.
Qed.



(** X20: the feature spec of a merged schema is the union of the feature
    specs.  When two schemas without a shared column name both have a
    feature spec, the receiver of the merge has one too, the union of the
    two. *)
Theorem Schema_as_feature_spec_merge (s1 s2 : Schema)
    (fs1 fs2 : gmap string ParseFeature) :
  dom (column_schemas s1) ## dom (column_schemas s2) →
  Schema_as_feature_spec s1 = Ok fs1 →
  Schema_as_feature_spec s2 = Ok fs2 →
  (Schema_merge s1 s2).2 = Ok ()
  ∧ Schema_as_feature_spec (Schema_merge s1 s2).1 = Ok (fs1 ∪ fs2).
Proof.
  intros Hdisj Hfs1 Hfs2. apply map_disjoint_dom in Hdisj.
  rewrite Schema_merge_fresh by done. split; [reflexivity |].
  unfold Schema_as_feature_spec in *; cbn [fst column_schemas].
  apply dict_comprehension_Ok. intros k.
  pose proof (dict_comprehension_lookup _ _ _ Hfs1 k) as Hrel1.
  pose proof (dict_comprehension_lookup _ _ _ Hfs2 k) as Hrel2.
  destruct (column_schemas s1 !! k) as [c|] eqn:Hc.
  - apply option_Forall2_Some_l in Hrel1 as (f & Hf & Hcf).
    rewrite (lookup_union_Some_l _ _ _ _ Hc), (lookup_union_Some_l _ _ _ _ Hf).
    by constructor.
  - apply option_Forall2_None_l in Hrel1.
    by rewrite (lookup_union_r _ _ _ Hc), (lookup_union_r _ _ _ Hrel1).
Qed.

Lemma Schema_as_feature_spec_merge_witness :
  let s1 := mk_Schema {["f" := fixed_column]} in
  let s2 := mk_Schema {["s" := sparse_column]} in
  ∃ fs1 fs2,
    Schema_as_feature_spec s1 = Ok fs1
    ∧ Schema_as_feature_spec s2 = Ok fs2
    ∧ (Schema_merge s1 s2).2 = Ok ()
    ∧ Schema_as_feature_spec (Schema_merge s1 s2).1 = Ok (fs1 ∪ fs2).
Proof.
  cbv zeta.
  exists {["f" := FixedLenFeature (Some [Some 3%N]) tf.int64 (Some (PyInt 0))]},
         {["s" := SparseFeature "idx" "val" tf.float32 (Some 10%N) true]}.
  assert (H1 : Schema_as_feature_spec (mk_Schema {["f" := fixed_column]})
               = Ok {["f" := FixedLenFeature (Some [Some 3%N]) tf.int64
                                (Some (PyInt 0))]})
    by (vm_compute; reflexivity).
  assert (H2 : Schema_as_feature_spec (mk_Schema {["s" := sparse_column]})
               = Ok {["s" := SparseFeature "idx" "val" tf.float32
                                (Some 10%N) true]})
    by (vm_compute; reflexivity).
  split; [exact H1 |]. split; [exact H2 |].
  apply Schema_as_feature_spec_merge; [| exact H1 | exact H2].
  cbn [column_schemas].
  apply map_disjoint_dom, map_disjoint_singleton_l. reflexivity.
Defined.

(** ** The round trip, continued *)

Lemma schema_round_trip_columns (s s' : Schema) :
  schema_round_trip s = Ok s' ↔
  (fs ← dict_comprehension ColumnSchema_as_feature_spec (column_schemas s);
   dict_comprehension _from_parse_feature fs) = Ok (column_schemas s').
Proof.
  destruct s as [cols], s' as [cols'].
  unfold schema_round_trip, Schema_as_feature_spec, from_feature_spec;
    cbn [column_schemas].
  destruct (dict_comprehension ColumnSchema_as_feature_spec cols) as [fs|e];
    cbn; [| done].
  destruct (dict_comprehension _from_parse_feature fs) as [d|e]; cbn; [| done].
  rewrite Schema_new_column_schemas. split; congruence.
Qed.

Lemma column_round_trip_round_trips (c c' : ColumnSchema) :
  column_round_trip c = Ok c' → round_trips c'.
Proof.
  destruct c as [[d sh] r].
  unfold column_round_trip, ColumnSchema_as_feature_spec;
    cbn [representation logical_column].
  destruct r as [dv| |vf ind];
    cbn -[FixedColumnRepresentation_as_feature_spec
          SparseColumnRepresentation_as_feature_spec].
  - rewrite FixedColumnRepresentation_as_feature_spec_cases; cbn.
    destruct sh as [[[l|]]|]; try discriminate.
    destruct (all_sizes_known l) eqn:Hl; [| discriminate]. cbn.
    destruct (_dtype_to_domain (Domain_dtype d)) as [d'|e] eqn:Hd; cbn;
      [| discriminate].
    intros [= <-]. apply _dtype_to_domain_Ok in Hd as (_ & _ & Hwf).
    split; [exact Hwf |]. cbn.
    unfold has_fixed_size, is_fixed_size; cbn.
    by rewrite fmap_mk_Axis_axis_size.
  - destruct (_dtype_to_domain (Domain_dtype d)) as [d'|e] eqn:Hd; cbn;
      [| discriminate].
    intros [= <-]. apply _dtype_to_domain_Ok in Hd as (_ & _ & Hwf).
    by split.
  - destruct sh as [[[l|]]|].
    + rewrite SparseColumnRepresentation_as_feature_spec_known_rank.
      destruct ind as [|[nm srt] [|? ?]], l as [|[n] [|? ?]]; cbn;
        try discriminate.
      destruct (_dtype_to_domain (Domain_dtype d)) as [d'|e] eqn:Hd; cbn;
        [| discriminate].
      intros [= <-]. apply _dtype_to_domain_Ok in Hd as (_ & _ & Hwf).
      split; [exact Hwf |]. cbn. split; [reflexivity | by eexists].
    + unfold SparseColumnRepresentation_as_feature_spec; cbn.
      case_bool_decide; discriminate.
    + unfold SparseColumnRepresentation_as_feature_spec; cbn.
      case_bool_decide; discriminate.
Qed.

(** X21: one round trip settles a schema.  When a schema goes through its
    feature spec and back, what comes back, equal to the original or not,
    comes back unchanged from then on. *)
Theorem schema_round_trip_idempotent (s s' : Schema) :
  schema_round_trip s = Ok s' → schema_round_trip s' = Ok s'.
Proof.
  intros Hrt. apply schema_round_trip_columns in Hrt.
  apply schema_round_trip_columns, dict_comprehension_round_trip.
  intros key c' Hc'.
  destruct (dict_comprehension ColumnSchema_as_feature_spec (column_schemas s))
    as [fs|e] eqn:Hfs; cbn in Hrt; [| discriminate].
  pose proof (dict_comprehension_lookup _ _ _ Hfs key) as Hrel1.
  pose proof (dict_comprehension_lookup _ _ _ Hrt key) as Hrel2.
  rewrite Hc' in Hrel2.
  apply option_Forall2_Some_r in Hrel2 as (f & Hf & Hfc).
  rewrite Hf in Hrel1.
  apply option_Forall2_Some_r in Hrel1 as (c & _ & Hcf).
  apply (column_round_trip_spec c').
  apply (column_round_trip_round_trips c). by eapply column_round_trip_inv.
Qed.

Lemma schema_round_trip_idempotent_witness :
  let s := mk_Schema {["x" := sized_list_column]} in
  let s' := mk_Schema {["x" := var_len_column (IntDomain tf.int64)]} in
  s ≠ s' ∧ schema_round_trip s = Ok s' ∧ schema_round_trip s' = Ok s'.
Proof.
  cbv zeta.
  assert (H : schema_round_trip (mk_Schema {["x" := sized_list_column]})
              = Ok (mk_Schema {["x" := var_len_column (IntDomain tf.int64)]}))
    by (vm_compute; reflexivity).
  split; [| split; [exact H |]].
  - intros Heq. apply (f_equal (λ s, column_schemas s !! "x")) in Heq.
    cbn [column_schemas] in Heq. rewrite !lookup_singleton_eq in Heq.
    discriminate Heq.
  - exact (schema_round_trip_idempotent _ _ H).
Defined.

Lemma ColumnSchema_as_feature_spec_accepted (c : ColumnSchema)
    (f : ParseFeature) :
  ColumnSchema_as_feature_spec c = Ok f →
  accepted f = supported (Domain_dtype (domain (logical_column c))).
Proof.
  destruct c as [[d sh] r].
  unfold ColumnSchema_as_feature_spec; cbn [representation logical_column].
  destruct r as [dv| |vf ind];
    cbn -[FixedColumnRepresentation_as_feature_spec
          SparseColumnRepresentation_as_feature_spec].
  - rewrite FixedColumnRepresentation_as_feature_spec_cases; cbn.
    destruct sh as [[[l|]]|]; try discriminate.
    destruct (all_sizes_known l); [| discriminate]. by intros [= <-].
  - by intros [= <-].
  - destruct sh as [[[l|]]|].
    + rewrite SparseColumnRepresentation_as_feature_spec_known_rank.
      destruct ind as [|[nm srt] [|? ?]], l as [|[n] [|? ?]]; cbn;
        try discriminate.
      by intros [= <-].
    + unfold SparseColumnRepresentation_as_feature_spec; cbn.
      case_bool_decide; discriminate.
    + unfold SparseColumnRepresentation_as_feature_spec; cbn.
      case_bool_decide; discriminate.
Qed.

(** X22: the feature spec of a schema is turned down by [from_feature_spec]
    exactly when a column of the schema has a dtype outside the four
    tables: the converters never produce a feature spec of a class that
    [from_feature_spec] does not read. *)
Theorem from_feature_spec_of_schema (s : Schema)
    (fs : gmap string ParseFeature) :
  Schema_as_feature_spec s = Ok fs →
  (raises (from_feature_spec fs) = true ↔
     ∃ key c, column_schemas s !! key = Some c
              ∧ supported (Domain_dtype (domain (logical_column c))) = false).
Proof.
  unfold Schema_as_feature_spec, from_feature_spec. intros Hfs.
  transitivity (raises (dict_comprehension _from_parse_feature fs) = true).
  { by destruct (dict_comprehension _from_parse_feature fs). }
  rewrite dict_comprehension_raises. split.
  - intros (key & f & Hf & Hr).
    pose proof (dict_comprehension_lookup _ _ _ Hfs key) as Hrel.
    rewrite Hf in Hrel. apply option_Forall2_Some_r in Hrel as (c & Hc & Hcf).
    exists key, c. split; [exact Hc |].
    rewrite <-(ColumnSchema_as_feature_spec_accepted _ _ Hcf).
    rewrite _from_parse_feature_raises in Hr. by destruct (accepted f).
  - intros (key & c & Hc & Hs).
    pose proof (dict_comprehension_lookup _ _ _ Hfs key) as Hrel.
    rewrite Hc in Hrel. apply option_Forall2_Some_l in Hrel as (f & Hf & Hcf).
    exists key, f. split; [exact Hf |].
    rewrite _from_parse_feature_raises,
      (ColumnSchema_as_feature_spec_accepted _ _ Hcf), Hs. reflexivity.
Qed.

Lemma from_feature_spec_of_schema_witness :
  let c := mk_ColumnSchema
             (mk_LogicalColumnSchema (IntDomain tf.uint32) (Some var_len_shape))
             ListColumnRepresentation in
  let fs : gmap string ParseFeature := {["u" := VarLenFeature tf.uint32]} in
  Schema_as_feature_spec (mk_Schema {["u" := c]}) = Ok fs
  ∧ raises (from_feature_spec fs) = true.
Proof.
  cbv zeta.
  assert (H : Schema_as_feature_spec
                (mk_Schema
                   {["u" := mk_ColumnSchema
                              (mk_LogicalColumnSchema (IntDomain tf.uint32)
                                 (Some var_len_shape))
                              ListColumnRepresentation]})
              = Ok {["u" := VarLenFeature tf.uint32]})
    by (vm_compute; reflexivity).
  split; [exact H |].
  apply (from_feature_spec_of_schema _ _ H).
  eexists "u", _. split; [apply lookup_singleton_eq | reflexivity].
Defined.

(** ** More instances *)

Lemma infer_column_schema_of_placeholder_witness :
  let c := mk_ColumnSchema int_vector3 (FixedColumnRepresentation None) in
  ColumnSchema_as_batched_placeholder c
    = Ok (placeholder tf.int64 [None; Some 3%N])
  ∧ infer_column_schema_from_tensor
      (placeholder_tensor tf.int64 [None; Some 3%N]) = Ok c.
Proof.
  cbv zeta. split; [reflexivity |].
  apply infer_column_schema_of_placeholder; [reflexivity |].
  split; reflexivity.
Defined.

Lemma placeholder_of_inferred_column_witness :
  let t := DenseTensor tf.float32 (Some [Some 32%N; Some 4%N; Some 2%N]) in
  ∃ c, infer_column_schema_from_tensor t = Ok c
       ∧ ColumnSchema_as_batched_placeholder c
         = Ok (placeholder tf.float32 [None; Some 4%N; Some 2%N]).
Proof.
  cbv zeta. eexists. split; [reflexivity |].
  apply (placeholder_of_inferred_column tf.float32 (Some 32%N)
           [Some 4%N; Some 2%N]).
  reflexivity.
Defined.
